(** * TinySA Ultra serial client (tinySA_python.py)

    A shallow embedding of the [TinySA] class: the read loop that frames a
    device reply ([getSerialReturn]), the normaliser that strips the echoed
    command and the prompt ([cleanReturn]), the send/receive wrapper
    ([tinySASerial]) and the argument-checking command methods.

    Python [bytes]/[bytearray] values are lists of bytes, Python [str] values
    are Rocq strings (every string the client builds is ASCII), Python [int]
    values are unbounded integers. The serial port and the console are an
    explicit state threaded through a small state-and-outcome monad. *)

From Stdlib Require Import ZArith List Bool Lia.
From Stdlib Require Import Strings.String Strings.Ascii Strings.Byte DecimalString.
Import ListNotations.

(* ================================================================== *)
(** ** Python primitives used by the client *)
(* ================================================================== *)

Module Py.

Definition bytes := list byte.

(** [B "ch>"] is the bytes literal [b'ch>']. *)
Definition B (s : string) : bytes := list_byte_of_string s.

(** The two-character line break ['\r\n'] as a [str] and as [bytes]. *)
Definition CRLF : string := String "013" (String "010" EmptyString).
Definition bCRLF : bytes := ["013"%byte; "010"%byte].

(** [bytes(s, 'utf-8')]; on ASCII text the encoding is byte-for-byte. *)
Definition encode_utf8 (s : string) : bytes := list_byte_of_string s.

(** [data.startswith(sub)]. *)
Fixpoint startswith (data sub : bytes) {struct sub} : bool :=
  match sub with
  | [] => true
  | p :: sub' =>
      match data with
      | [] => false
      | d :: data' => Byte.eqb d p && startswith data' sub'
      end
  end.

(** Offset of the first occurrence of [sub] in [data], scanning from the
    left, if there is one. *)
Fixpoint search (data sub : bytes) : option nat :=
  if startswith data sub then Some 0
  else match data with
       | [] => None
       | _ :: data' => option_map S (search data' sub)
       end.

(** [data.find(sub)]: lowest index of [sub], [-1] when absent. *)
Definition find (data sub : bytes) : Z :=
  match search data sub with
  | Some i => Z.of_nat i
  | None => (-1)%Z
  end.

(** [data.index(sub)]: as [find], but raises [ValueError] when absent;
    [None] stands for the raised [ValueError]. *)
Definition index (data sub : bytes) : option Z :=
  match search data sub with
  | Some i => Some (Z.of_nat i)
  | None => None
  end.

(** A slice bound the way Python resolves it against a length: negative
    bounds count from the end, and everything is clamped to [0..len]. *)
Definition slice_bound (len : nat) (i : Z) : nat :=
  if (i <? 0)%Z then Z.to_nat (Z.max 0 (Z.of_nat len + i))
  else Nat.min len (Z.to_nat i).

(** [data[i:]] and [data[:j]]. *)
Definition slice_from (data : bytes) (i : Z) : bytes :=
  skipn (slice_bound (List.length data) i) data.
Definition slice_to (data : bytes) (j : Z) : bytes :=
  firstn (slice_bound (List.length data) j) data.

(** [data.endswith(suffix)]. *)
Definition endswith (data suffix : bytes) : bool :=
  startswith (rev data) (rev suffix).

(** Exceptions the modelled code can raise. *)
Inductive pyexn := ValueError | TypeError.

(** Argument values a caller passes to a command method: [None], an [int]
    or a [str]. Other Python objects ([bool], [float], ...) are outside this
    type: what is proved for every argument is proved for these three
    kinds. *)
Inductive pyval :=
| PNone
| PInt (z : Z)
| PStr (s : string).

(** [a == b] on argument values. *)
Definition py_eq (a b : pyval) : bool :=
  match a, b with
  | PNone, PNone => true
  | PInt x, PInt y => (x =? y)%Z
  | PStr s, PStr t => String.eqb s t
  | _, _ => false
  end.

(** [val in lst] on a Python list: some element compares equal. *)
Definition py_in (val : pyval) (lst : list pyval) : bool :=
  existsb (py_eq val) lst.

(** [np.arange(start, stop, step)] for a positive step: the integers
    [start, start+step, ...] below [stop]. *)
Definition np_arange (start stop step : Z) : list Z :=
  map (fun k => (start + Z.of_nat k * step)%Z)
      (seq 0 (Z.to_nat ((stop - start + step - 1) / step))).

(** [val in arr] on an integer array: [(arr == val).any()]. *)
Definition np_contains (val : pyval) (arr : list Z) : bool :=
  existsb (fun x => py_eq val (PInt x)) arr.

(** [isinstance(val, int)]. *)
Definition isinstance_int (val : pyval) : bool :=
  match val with
  | PInt _ => true
  | _ => false
  end.

(** The chained comparison [lo <= val <= hi] against integer bounds;
    ordering an [int] against [None] or a [str] raises [TypeError]
    ([None] here). *)
Definition between (lo : Z) (val : pyval) (hi : Z) : option bool :=
  match val with
  | PInt z => Some ((lo <=? z)%Z && (z <=? hi)%Z)
  | _ => None
  end.

(** [str(val)]; for an [int], its decimal digits. CPython refuses to
    convert an [int] of more than 4300 digits ([ValueError]); this function
    is [str] below that size, and a property that needs [str] of an
    unbounded [int] carries the bound as a hypothesis. *)
Definition str (val : pyval) : string :=
  match val with
  | PNone => "None"
  | PInt z => NilZero.string_of_int (Z.to_int z)
  | PStr s => s
  end.

(** [str(id)] where [id] is still Python's builtin function. *)
Definition str_builtin_id : string := "<built-in function id>".

End Py.
Import Py.

(* ================================================================== *)
(** ** The client state and its monad *)
(* ================================================================== *)

Module TinySA.

(** The serial port as the client sees it. [written] collects what
    [ser.write] has sent. [pending] lists what successive passes of the read
    loop find: [[]] when [ser.in_waiting] is [0], otherwise the bytes that
    [ser.read(ser.in_waiting)] hands over. *)
Record Serial := mkSerial {
  written : bytes;
  pending : list bytes
}.

(** What [print] received. *)
Inductive printed :=
| PrintStr (s : string)
| PrintBytes (b : bytes).

Record World := mkWorld {
  ser : Serial;
  stdout : list printed
}.

(** How a call ends: it returns, it raises, or it never comes back
    (the read loop keeps polling a silent device). *)
Inductive result (A : Type) :=
| Ok (a : A)
| Exn (e : pyexn)
| Diverge.
Arguments Ok {A} a.
Arguments Exn {A} e.
Arguments Diverge {A}.

Definition M (A : Type) := World -> result A * World.

Definition ret {A} (a : A) : M A := fun w => (Ok a, w).

Definition bind {A B} (m : M A) (k : A -> M B) : M B :=
  fun w =>
    match m w with
    | (Ok a, w') => k a w'
    | (Exn e, w') => (Exn e, w')
    | (Diverge, w') => (Diverge, w')
    end.

Definition raise {A} (e : pyexn) : M A := fun w => (Exn e, w).

Notation "x <- m ;; k" := (bind m (fun x => k))
  (at level 61, m at next level, right associativity).
Notation "m ;; k" := (bind m (fun _ => k))
  (at level 61, right associativity).

(** [print(s)]. *)
Definition print (s : string) : M unit :=
  fun w => (Ok tt, mkWorld (ser w) (stdout w ++ [PrintStr s])).

Definition print_bytes (b : bytes) : M unit :=
  fun w => (Ok tt, mkWorld (ser w) (stdout w ++ [PrintBytes b])).

(** [self.ser.write(data)]. *)
Definition ser_write (data : bytes) : M unit :=
  fun w => (Ok tt, mkWorld (mkSerial (written (ser w) ++ data)
                                     (pending (ser w)))
                           (stdout w)).

(** Evaluate a condition that may raise [TypeError]. *)
Definition eval (c : option bool) : M bool :=
  match c with
  | Some b => ret b
  | None => raise TypeError
  end.

(* ================================================================== *)
(** ** Serial management and message processing *)
(* ================================================================== *)

(** How the [while True] loop of [getSerialReturn] ends on a given supply
    of polls: by [break], with [complete], the local [buffer] as last
    assigned and the polls not yet consumed; or never, when the supply ends
    with the loop still waiting. *)
Inductive loop_exit :=
| Break (complete buffer : bytes) (rest : list bytes)
| Spin (buffer : bytes).

Fixpoint read_loop (buffer : bytes) (polls : list bytes) : loop_exit :=
  match polls with
  | [] => Spin buffer
  | chunk :: rest =>
      match chunk with
      | [] => read_loop buffer rest
      | _ :: _ =>
          let buffer := buffer ++ chunk in
          match index buffer (B ">") with
          | None => read_loop buffer rest
          | Some i =>
              let complete := slice_to buffer (i + 1) in
              match index buffer (B "ch>") with
              | None => read_loop buffer rest
              | Some j => Break complete (slice_from buffer (j + 1)) rest
              end
          end
      end
  end.

(** [getSerialReturn]: [buffer] starts empty on every call and is local, so
    what the loop leaves in it is dropped on return. The only exception the
    [try] body can raise here is the [ValueError] of [index]. *)
Definition getSerialReturn : M bytes :=
  fun w =>
    let buffer := [] in
    match read_loop buffer (pending (ser w)) with
    | Break complete _ rest =>
        (Ok complete, mkWorld (mkSerial (written (ser w)) rest) (stdout w))
    | Spin _ =>
        (Diverge, mkWorld (mkSerial (written (ser w)) []) (stdout w))
    end.

Definition cleanReturn (data : bytes) : bytes :=
  let first_newline_index := find data bCRLF in
  let data :=
    if negb (first_newline_index =? -1)%Z
    then slice_from data (first_newline_index + 2)
    else data in
  if endswith data (B "ch>")
  then slice_to data (-4)
  else data.

Definition tinySASerial (writebyte : string) (printBool : bool) : M bytes :=
  ser_write (encode_utf8 writebyte) ;;
  msgbytes <- getSerialReturn ;;
  let msgbytes := cleanReturn msgbytes in
  (if printBool then print_bytes msgbytes else ret tt) ;;
  ret msgbytes.

(* ================================================================== *)
(** ** Serial command config, input error checking *)
(* ================================================================== *)

(** Python's short-circuit [a or b] and [a and b] where the right operand
    may raise. *)
Definition or_else (a : bool) (b : option bool) : option bool :=
  if a then Some true else b.
Definition and_then (a : bool) (b : option bool) : option bool :=
  if a then b else Some false.

Definition agc (val : pyval) : M bytes :=
  let accepted_vals := np_arange 0 8 1 in
  if py_eq val (PStr "auto") || np_contains val accepted_vals then
    let writebyte := ("agc " ++ str val ++ CRLF)%string in
    tinySASerial writebyte false
  else
    print "ERROR: agc() takes vals [0 - 7]|auto" ;;
    ret (B "ERROR").

Definition attenuate (val : pyval) : M bytes :=
  let accepted_vals := np_arange 0 31 1 in
  if py_eq val (PStr "auto") || np_contains val accepted_vals then
    let writebyte := ("attenuate " ++ str val ++ CRLF)%string in
    tinySASerial writebyte false
  else
    print "ERROR: attenuate() takes vals [0 - 31]|auto" ;;
    ret (B "").

Definition caloutput (val : pyval) : M bytes :=
  let accepted_vals :=
    [PStr "off"; PInt 1; PInt 2; PInt 3; PInt 4; PInt 10; PInt 15; PInt 30] in
  if py_in val accepted_vals then
    let writebyte := ("caloutput " ++ str val ++ CRLF)%string in
    tinySASerial writebyte false
  else
    print "ERROR: caloutput() takes vals 1|2|3|4|10|15|30|off" ;;
    ret (B "").

Definition dac (val : pyval) : M bytes :=
  if py_eq val PNone then
    let writebyte := ("dac" ++ CRLF)%string in
    tinySASerial writebyte false
  else
    c <- eval (and_then (isinstance_int val) (between 0 val 4095)) ;;
    if c then
      let writebyte := ("dac " ++ str_builtin_id ++ CRLF)%string in
      msgbytes <- tinySASerial writebyte false ;;
      print ("dac set to " ++ str_builtin_id) ;;
      ret msgbytes
    else
      print "ERROR: dac() takes either None or integers" ;;
      ret (B "").

Definition data (val : pyval) : M bytes :=
  let accepted_vals := [PInt 0; PInt 1; PInt 2] in
  if py_in val accepted_vals then
    let writebyte := ("data " ++ str val ++ CRLF)%string in
    tinySASerial writebyte false
  else
    print "ERROR: data() takes vals [0-2]" ;;
    ret (B "").

Definition deviceid (id : pyval) : M bytes :=
  if py_eq id PNone then
    let writebyte := ("deviceid" ++ CRLF)%string in
    tinySASerial writebyte false
  else if isinstance_int id then
    let writebyte := ("deviceid " ++ str id ++ CRLF)%string in
    msgbytes <- tinySASerial writebyte false ;;
    print ("device ID set to " ++ str id) ;;
    ret msgbytes
  else
    print "ERROR: deviceid() takes either None or integers" ;;
    ret (B "").

Definition ext_gain (val : pyval) : M bytes :=
  c <- eval (and_then (isinstance_int val) (between (-100) val 100)) ;;
  if c then
    let writebyte := ("ext_gain " ++ str val ++ CRLF)%string in
    tinySASerial writebyte false
  else
    print "ERROR: ext_gain() takes vals [-100 - 100]" ;;
    ret (B "").

Definition freq (val : pyval) : M bytes :=
  c <- eval (and_then (isinstance_int val)
                      (between (100 * 10 ^ 3) val (53 * 10 ^ 8))) ;;
  if c then
    let writebyte := ("freq " ++ str val ++ CRLF)%string in
    tinySASerial writebyte false
  else
    print "ERROR: freq() takes integer vals [100 kHz - 5.3 GHz] as Hz for the tinySA Ultra" ;;
    ret (B "").

Definition setIF (val : pyval) : M bytes :=
  c <- eval (or_else (py_eq val (PInt 0))
                     (between (433 * 10 ^ 6) val (435 * 10 ^ 6))) ;;
  if c then
    let writebyte := ("if " ++ str val ++ CRLF)%string in
    tinySASerial writebyte false
  else
    print "ERROR: if() takes vals [0 |433M...435M] in Hz as integers" ;;
    ret (B "").

Definition if1 (val : pyval) : M bytes :=
  c <- eval (or_else (py_eq val (PInt 0))
                     (between (975 * 10 ^ 6) val (979 * 10 ^ 6))) ;;
  if c then
    let writebyte := ("if1 " ++ str val ++ CRLF)%string in
    tinySASerial writebyte false
  else
    print "ERROR: if1() takes vals [0 |975M...979M] in Hz as integers" ;;
    ret (B "").

Definition levelchange (val : pyval) : M bytes :=
  let accepted_vals := np_arange (-70) 71 1 in
  if np_contains val accepted_vals then
    let writebyte := ("levelchange " ++ str val ++ CRLF)%string in
    tinySASerial writebyte false
  else
    print "ERROR: levelchange() takes vals [-70 - 70]" ;;
    ret (B "").

Definition load (val : pyval) : M bytes :=
  let accepted_vals := [PInt 0; PInt 1; PInt 2; PInt 3; PInt 4] in
  if py_in val accepted_vals then
    let writebyte := ("load " ++ str val ++ CRLF)%string in
    tinySASerial writebyte false
  else
    print "ERROR: load() takes vals [0 - 4]" ;;
    ret (B "").

Definition lna (val : pyval) : M bytes :=
  let accepted_vals := [PStr "on"; PStr "off"] in
  if py_in val accepted_vals then
    let writebyte := ("lna " ++ str val ++ CRLF)%string in
    tinySASerial writebyte false
  else
    print "ERROR: lna() takes vals [on|off]" ;;
    ret (B "").

Definition lna2 (val : pyval) : M bytes :=
  let accepted_vals :=
    [PInt 0; PInt 1; PInt 2; PInt 3; PInt 4; PInt 5; PInt 6; PInt 7] in
  if py_eq val (PStr "auto") || py_in val accepted_vals then
    let writebyte := ("lna2 " ++ str val ++ CRLF)%string in
    tinySASerial writebyte false
  else
    print "ERROR: lna2() takes vals [0 - 7]|auto" ;;
    ret (B "").

Definition output (val : pyval) : M bytes :=
  let accepted_vals := [PStr "on"; PStr "off"] in
  if py_in val accepted_vals then
    let writebyte := ("output " ++ str val ++ CRLF)%string in
    tinySASerial writebyte false
  else
    print "ERROR: output() takes vals [on|off]" ;;
    ret (B "").

Definition rbw (val : pyval) : M bytes :=
  if py_eq val (PStr "auto") then
    let writebyte := ("rbw " ++ str val ++ CRLF)%string in
    tinySASerial writebyte false
  else
    c <- eval (and_then (isinstance_int val)
                        (between (3 * 10 ^ 3) val (600 * 10 ^ 3))) ;;
    if c then
      let writebyte := ("rbw " ++ str val ++ CRLF)%string in
      tinySASerial writebyte false
    else
      print "ERROR: rbw() takes vals [auto |0 - 600] in kHz as integers" ;;
      ret (B "").

Definition recall (val : pyval) : M bytes :=
  let accepted_vals := [PInt 0; PInt 1; PInt 2; PInt 3; PInt 4] in
  if py_in val accepted_vals then
    let writebyte := ("recall " ++ str val ++ CRLF)%string in
    tinySASerial writebyte false
  else
    print "ERROR: recall() takes vals [0 - 4]" ;;
    ret (B "").

Definition refresh (val : pyval) : M bytes :=
  let accepted_vals := [PStr "on"; PStr "off"] in
  if py_in val accepted_vals then
    let writebyte := ("refresh " ++ str val ++ CRLF)%string in
    tinySASerial writebyte false
  else
    print "ERROR: refresh() takes vals [on|off]" ;;
    ret (B "").

Definition save (val : pyval) : M bytes :=
  let accepted_vals := [PInt 0; PInt 1; PInt 2; PInt 3; PInt 4] in
  if py_in val accepted_vals then
    let writebyte := ("save " ++ str val ++ CRLF)%string in
    tinySASerial writebyte false
  else
    print "ERROR: save() takes vals [0 - 4] as integers" ;;
    ret (B "").

Definition selftest (val : pyval) : M bytes :=
  let accepted_vals :=
    [PInt 0; PInt 1; PInt 2; PInt 3; PInt 4;
     PInt 5; PInt 6; PInt 7; PInt 8; PInt 9] in
  if py_in val accepted_vals then
    print "SELFTEST RUNNING. CONNECT CAL to RF" ;;
    let writebyte := ("selftest " ++ str val ++ CRLF)%string in
    tinySASerial writebyte false
  else
    print "ERROR: selftest() takes vals [0-9]" ;;
    ret (B "").

Definition spur (val : pyval) : M bytes :=
  let accepted_vals := [PStr "on"; PStr "off"] in
  if py_in val accepted_vals then
    let writebyte := ("spur " ++ str val ++ CRLF)%string in
    tinySASerial writebyte false
  else
    print "ERROR: spur() takes vals [on|off]" ;;
    ret (B "").

Definition vbat_offset (val : pyval) : M bytes :=
  if py_eq val PNone then
    let writebyte := ("vbat_offset" ++ CRLF)%string in
    tinySASerial writebyte false
  else
    c <- eval (and_then (isinstance_int val) (between 0 val 4095)) ;;
    if c then
      let writebyte := ("vbat_offset " ++ str_builtin_id ++ CRLF)%string in
      msgbytes <- tinySASerial writebyte false ;;
      print ("vbat_offset set to " ++ str_builtin_id) ;;
      ret msgbytes
    else
      print "ERROR: vbat_offset() takes either None or [0 - 4095] integers" ;;
      ret (B "").

Definition version : M bytes :=
  let writebyte := ("version" ++ CRLF)%string in
  tinySASerial writebyte false.

(** The methods that check an argument before sending, by name, and a call
    of one of them on an argument. *)
Inductive command :=
| Cmd_agc | Cmd_attenuate | Cmd_caloutput | Cmd_dac | Cmd_data
| Cmd_deviceid | Cmd_ext_gain | Cmd_freq | Cmd_setIF | Cmd_if1
| Cmd_levelchange | Cmd_load | Cmd_lna | Cmd_lna2 | Cmd_output | Cmd_rbw
| Cmd_recall | Cmd_refresh | Cmd_save | Cmd_selftest | Cmd_spur
| Cmd_vbat_offset.

Definition call (c : command) (val : pyval) : M bytes :=
  match c with
  | Cmd_agc => agc val
  | Cmd_attenuate => attenuate val
  | Cmd_caloutput => caloutput val
  | Cmd_dac => dac val
  | Cmd_data => data val
  | Cmd_deviceid => deviceid val
  | Cmd_ext_gain => ext_gain val
  | Cmd_freq => freq val
  | Cmd_setIF => setIF val
  | Cmd_if1 => if1 val
  | Cmd_levelchange => levelchange val
  | Cmd_load => load val
  | Cmd_lna => lna val
  | Cmd_lna2 => lna2 val
  | Cmd_output => output val
  | Cmd_rbw => rbw val
  | Cmd_recall => recall val
  | Cmd_refresh => refresh val
  | Cmd_save => save val
  | Cmd_selftest => selftest val
  | Cmd_spur => spur val
  | Cmd_vbat_offset => vbat_offset val
  end.

(** The name each method puts on the wire. *)
Definition wire_name (c : command) : string :=
  match c with
  | Cmd_agc => "agc"
  | Cmd_attenuate => "attenuate"
  | Cmd_caloutput => "caloutput"
  | Cmd_dac => "dac"
  | Cmd_data => "data"
  | Cmd_deviceid => "deviceid"
  | Cmd_ext_gain => "ext_gain"
  | Cmd_freq => "freq"
  | Cmd_setIF => "if"
  | Cmd_if1 => "if1"
  | Cmd_levelchange => "levelchange"
  | Cmd_load => "load"
  | Cmd_lna => "lna"
  | Cmd_lna2 => "lna2"
  | Cmd_output => "output"
  | Cmd_rbw => "rbw"
  | Cmd_recall => "recall"
  | Cmd_refresh => "refresh"
  | Cmd_save => "save"
  | Cmd_selftest => "selftest"
  | Cmd_spur => "spur"
  | Cmd_vbat_offset => "vbat_offset"
  end.

(** *** The argument domains the source documents

    Each method carries a [# usage:] comment and an error text naming the
    values it takes. [documented_domain] reads them off, taking the union
    where the two differ ([if1]: the usage line gives 975M..979M, the error
    text adds 0; [rbw]: the usage line gives auto|3..600 in kHz, the error
    text 0 - 600). An optional argument whose method defaults to [None]
    admits [None]. *)

Definition is_none (v : pyval) : bool :=
  match v with
  | PNone => true
  | _ => false
  end.

Definition is_str (s : string) (v : pyval) : bool :=
  match v with
  | PStr t => String.eqb t s
  | _ => false
  end.

Definition int_in (lo hi : Z) (v : pyval) : bool :=
  match v with
  | PInt z => (lo <=? z)%Z && (z <=? hi)%Z
  | _ => false
  end.

Definition int_among (l : list Z) (v : pyval) : bool :=
  match v with
  | PInt z => existsb (Z.eqb z) l
  | _ => false
  end.

Definition on_off (v : pyval) : bool := is_str "on" v || is_str "off" v.

Definition documented_domain (c : command) (v : pyval) : bool :=
  match c with
  | Cmd_agc => is_str "auto" v || int_in 0 7 v
  | Cmd_attenuate => is_str "auto" v || int_in 0 31 v
  | Cmd_caloutput =>
      is_str "off" v || int_among [30; 15; 10; 4; 3; 2; 1]%Z v
  | Cmd_dac => is_none v || int_in 0 4095 v
  | Cmd_data => int_in 0 2 v
  | Cmd_deviceid => is_none v || isinstance_int v
  | Cmd_ext_gain => int_in (-100) 100 v
  | Cmd_freq => int_in 100000 5300000000 v
  | Cmd_setIF => int_in 0 0 v || int_in 433000000 435000000 v
  | Cmd_if1 => int_in 0 0 v || int_in 975000000 979000000 v
  | Cmd_levelchange => int_in (-70) 70 v
  | Cmd_load => int_in 0 4 v
  | Cmd_lna => on_off v
  | Cmd_lna2 => is_str "auto" v || int_in 0 7 v
  | Cmd_output => on_off v
  | Cmd_rbw => is_str "auto" v || int_in 0 600 v
  | Cmd_recall => int_in 0 4 v
  | Cmd_refresh => on_off v
  | Cmd_save => int_in 0 4 v
  | Cmd_selftest => int_in 0 9 v
  | Cmd_spur => on_off v
  | Cmd_vbat_offset => is_none v || int_in 0 4095 v
  end.

(** The value each method returns from its rejecting branch. *)
Definition rejection_value (c : command) : bytes :=
  match c with
  | Cmd_agc => B "ERROR"
  | _ => B ""
  end.

End TinySA.
Import TinySA.

(* ================================================================== *)
(** ** Notions used to state the properties *)
(* ================================================================== *)

(** [sub] occurs somewhere in [d]; [d] ends with [suf]. *)
Definition occurs_in (sub d : bytes) : Prop :=
  exists a b, d = a ++ sub ++ b.

Definition ends_with (d suf : bytes) : Prop :=
  exists a, d = a ++ suf.

(** [rest] is what follows the first line break of [data], or all of
    [data] when it has no line break. *)
Definition after_first_line_break (data rest : bytes) : Prop :=
  (exists echo, ~ occurs_in bCRLF echo /\ data = echo ++ bCRLF ++ rest) \/
  (~ occurs_in bCRLF data /\ rest = data).

(** The line each method prints from its rejecting branch. *)
Definition error_text (c : command) : string :=
  match c with
  | Cmd_agc => "ERROR: agc() takes vals [0 - 7]|auto"
  | Cmd_attenuate => "ERROR: attenuate() takes vals [0 - 31]|auto"
  | Cmd_caloutput => "ERROR: caloutput() takes vals 1|2|3|4|10|15|30|off"
  | Cmd_dac => "ERROR: dac() takes either None or integers"
  | Cmd_data => "ERROR: data() takes vals [0-2]"
  | Cmd_deviceid => "ERROR: deviceid() takes either None or integers"
  | Cmd_ext_gain => "ERROR: ext_gain() takes vals [-100 - 100]"
  | Cmd_freq =>
      "ERROR: freq() takes integer vals [100 kHz - 5.3 GHz] as Hz for the tinySA Ultra"
  | Cmd_setIF => "ERROR: if() takes vals [0 |433M...435M] in Hz as integers"
  | Cmd_if1 => "ERROR: if1() takes vals [0 |975M...979M] in Hz as integers"
  | Cmd_levelchange => "ERROR: levelchange() takes vals [-70 - 70]"
  | Cmd_load => "ERROR: load() takes vals [0 - 4]"
  | Cmd_lna => "ERROR: lna() takes vals [on|off]"
  | Cmd_lna2 => "ERROR: lna2() takes vals [0 - 7]|auto"
  | Cmd_output => "ERROR: output() takes vals [on|off]"
  | Cmd_rbw => "ERROR: rbw() takes vals [auto |0 - 600] in kHz as integers"
  | Cmd_recall => "ERROR: recall() takes vals [0 - 4]"
  | Cmd_refresh => "ERROR: refresh() takes vals [on|off]"
  | Cmd_save => "ERROR: save() takes vals [0 - 4] as integers"
  | Cmd_selftest => "ERROR: selftest() takes vals [0-9]"
  | Cmd_spur => "ERROR: spur() takes vals [on|off]"
  | Cmd_vbat_offset =>
      "ERROR: vbat_offset() takes either None or [0 - 4095] integers"
  end.

(** What a method prints on the way when its call goes through: [dac],
    [deviceid] and [vbat_offset] report after the exchange when given a
    value, [selftest] warns before it, the others print nothing. *)
Definition announce (c : command) (v : pyval) : list printed :=
  match c with
  | Cmd_dac =>
      if py_eq v PNone then []
      else [PrintStr ("dac set to " ++ str_builtin_id)]
  | Cmd_deviceid =>
      if py_eq v PNone then []
      else [PrintStr ("device ID set to " ++ str v)]
  | Cmd_vbat_offset =>
      if py_eq v PNone then []
      else [PrintStr ("vbat_offset set to " ++ str_builtin_id)]
  | Cmd_selftest => [PrintStr "SELFTEST RUNNING. CONNECT CAL to RF"]
  | _ => []
  end.

(** An argument whose [str] CPython computes: anything but an [int] of more
    than 4300 digits. *)
Definition within_str_limit (v : pyval) : Prop :=
  match v with
  | PInt z => (Z.abs z < 10 ^ 4300)%Z
  | _ => True
  end.

(** A world whose port has the given history and supply of reads. *)
Definition world (sent : bytes) (polls : list bytes) : World :=
  mkWorld (mkSerial sent polls) [].

(* ================================================================== *)
(** ** The methods without argument checking *)
(* ================================================================== *)

Module Plain.

(** Methods that return Python's [None] have result type [unit]. *)

(** *** Queries: one exchange, the payload returned as it comes *)
Definition actual_freq : M bytes :=
  let writebyte := ("actual_freq" ++ CRLF)%string in
  tinySASerial writebyte false.

Definition capture : M bytes :=
  let writebyte := ("capture" ++ CRLF)%string in
  tinySASerial writebyte false.

Definition clearconfig : M bytes :=
  let writebyte := ("clearconfig 1234" ++ CRLF)%string in
  tinySASerial writebyte false.

Definition freq_corr : M bytes :=
  let writebyte := ("freq_corr" ++ CRLF)%string in
  tinySASerial writebyte false.

Definition frequencies : M bytes :=
  let writebyte := ("frequencies" ++ CRLF)%string in
  tinySASerial writebyte false.

Definition help : M bytes :=
  let writebyte := ("help" ++ CRLF)%string in
  tinySASerial writebyte false.

Definition info : M bytes :=
  let writebyte := ("info" ++ CRLF)%string in
  tinySASerial writebyte false.

Definition nf : M bytes :=
  let writebyte := ("nf" ++ CRLF)%string in
  tinySASerial writebyte false.

Definition pause : M bytes :=
  let writebyte := ("pause" ++ CRLF)%string in
  tinySASerial writebyte false.

Definition release : M bytes :=
  let writebyte := ("release" ++ CRLF)%string in
  tinySASerial writebyte false.

Definition repeat : M bytes :=
  let writebyte := ("repeat" ++ CRLF)%string in
  tinySASerial writebyte false.

Definition resume : M bytes :=
  let writebyte := ("resume" ++ CRLF)%string in
  tinySASerial writebyte false.

Definition saveconfig : M bytes :=
  let writebyte := ("saveconfig" ++ CRLF)%string in
  tinySASerial writebyte false.

Definition status : M bytes :=
  let writebyte := ("status" ++ CRLF)%string in
  tinySASerial writebyte false.

Definition threads : M bytes :=
  let writebyte := ("threads" ++ CRLF)%string in
  tinySASerial writebyte false.

Definition touchcal : M bytes :=
  let writebyte := ("touchcal" ++ CRLF)%string in
  tinySASerial writebyte false.

Definition touchtest : M bytes :=
  let writebyte := ("touchtest" ++ CRLF)%string in
  tinySASerial writebyte false.

Definition usart_cfg : M bytes :=
  let writebyte := ("usart_cfg" ++ CRLF)%string in
  tinySASerial writebyte false.

Definition vbat : M bytes :=
  let writebyte := ("vbat" ++ CRLF)%string in
  tinySASerial writebyte false.

Definition wait : M bytes :=
  let writebyte := ("wait" ++ CRLF)%string in
  tinySASerial writebyte false.

(** [sd_list] spells the exchange out instead of calling [tinySASerial]. *)
Definition sd_list : M bytes :=
  ser_write (B "sd_list" ++ bCRLF) ;;
  msgbytes <- getSerialReturn ;;
  let msgbytes := cleanReturn msgbytes in
  ret msgbytes.

(** [reset] runs the exchange and returns [None] whatever came back. *)
Definition reset : M unit :=
  let writebyte := ("reset" ++ CRLF)%string in
  msgbytes <- tinySASerial writebyte false ;;
  ret tt.

Inductive query :=
| Q_actual_freq | Q_capture | Q_clearconfig | Q_freq_corr | Q_frequencies
| Q_help | Q_info | Q_nf | Q_pause | Q_release | Q_repeat | Q_resume
| Q_saveconfig | Q_sd_list | Q_status | Q_threads | Q_touchcal | Q_touchtest
| Q_usart_cfg | Q_vbat | Q_version | Q_wait.

Definition ask (q : query) : M bytes :=
  match q with
  | Q_actual_freq => actual_freq
  | Q_capture => capture
  | Q_clearconfig => clearconfig
  | Q_freq_corr => freq_corr
  | Q_frequencies => frequencies
  | Q_help => help
  | Q_info => info
  | Q_nf => nf
  | Q_pause => pause
  | Q_release => release
  | Q_repeat => repeat
  | Q_resume => resume
  | Q_saveconfig => saveconfig
  | Q_sd_list => sd_list
  | Q_status => status
  | Q_threads => threads
  | Q_touchcal => touchcal
  | Q_touchtest => touchtest
  | Q_usart_cfg => usart_cfg
  | Q_vbat => vbat
  | Q_version => TinySA.version
  | Q_wait => wait
  end.

(** The text each query sends, before the line break. *)
Definition query_line (q : query) : string :=
  match q with
  | Q_actual_freq => "actual_freq"
  | Q_capture => "capture"
  | Q_clearconfig => "clearconfig 1234"
  | Q_freq_corr => "freq_corr"
  | Q_frequencies => "frequencies"
  | Q_help => "help"
  | Q_info => "info"
  | Q_nf => "nf"
  | Q_pause => "pause"
  | Q_release => "release"
  | Q_repeat => "repeat"
  | Q_resume => "resume"
  | Q_saveconfig => "saveconfig"
  | Q_sd_list => "sd_list"
  | Q_status => "status"
  | Q_threads => "threads"
  | Q_touchcal => "touchcal"
  | Q_touchtest => "touchtest"
  | Q_usart_cfg => "usart_cfg"
  | Q_vbat => "vbat"
  | Q_version => "version"
  | Q_wait => "wait"
  end.

End Plain.

(* ================================================================== *)
(** ** Facts about the byte primitives *)
(* ================================================================== *)

Section BytePrimitives.

Lemma byte_eqb_refl (b : byte) : Byte.eqb b b = true.
Proof. now apply byte_dec_lb. Qed.

Lemma startswith_app (p r : bytes) : startswith (p ++ r) p = true.
Proof.
  induction p as [|a p IH]; simpl; [reflexivity|].
  now rewrite byte_eqb_refl, IH.
Qed.

Lemma startswith_split (d p : bytes) :
  startswith d p = true -> exists r, d = p ++ r.
Proof.
  revert d; induction p as [|a p IH]; intros d H; simpl in *.
  - now exists d.
  - destruct d as [|x d]; [discriminate|].
    apply andb_true_iff in H as [Hx Hd].
    apply byte_dec_bl in Hx; subst x.
    destruct (IH _ Hd) as [r ->]. now exists r.
Qed.

(** A successful search splits the data at the reported offset. *)
Lemma search_Some_split (sub d : bytes) (i : nat) :
  search d sub = Some i ->
  exists pre post, d = pre ++ sub ++ post /\ List.length pre = i.
Proof.
  revert i; induction d as [|x d IH]; intros i H; simpl in H.
  - destruct (startswith [] sub) eqn:E; [|discriminate].
    injection H as <-. apply startswith_split in E as [r ->].
    now exists [], r.
  - destruct (startswith (x :: d) sub) eqn:E.
    + injection H as <-. apply startswith_split in E as [r ->].
      now exists [], r.
    + destruct (search d sub) as [j|] eqn:Ej; [|discriminate].
      injection H as <-.
      destruct (IH j eq_refl) as (pre & post & -> & Hl).
      exists (x :: pre), post. simpl. now rewrite Hl.
Qed.

Lemma search_here (sub d : bytes) :
  startswith d sub = true -> search d sub = Some 0.
Proof. intros H. destruct d; simpl; now rewrite H. Qed.

Lemma search_later (sub d : bytes) (x : byte) :
  startswith (x :: d) sub = false ->
  search (x :: d) sub = option_map S (search d sub).
Proof. intros H. cbn [search]. now rewrite H. Qed.

(** Whenever the pattern occurs somewhere, the search finds something. *)
Lemma search_complete (sub pre post : bytes) :
  exists i, search (pre ++ sub ++ post) sub = Some i /\ i <= List.length pre.
Proof.
  induction pre as [|x pre IH].
  - exists 0. split; [|simpl; lia].
    cbn [app]. apply search_here, startswith_app.
  - destruct IH as (i & Hi & Hle).
    destruct (startswith ((x :: pre) ++ sub ++ post) sub) eqn:E.
    + exists 0. split; [now apply search_here | lia].
    + exists (S i). split; [|simpl; lia].
      change ((x :: pre) ++ sub ++ post) with (x :: (pre ++ sub ++ post)) in *.
      rewrite (search_later _ _ _ E), Hi. reflexivity.
Qed.

Lemma search_None_no_split (sub d pre post : bytes) :
  search d sub = None -> d <> pre ++ sub ++ post.
Proof.
  intros H ->. destruct (search_complete sub pre post) as (i & Hi & _).
  congruence.
Qed.

(** Searching for a single byte. *)
Lemma search_byte_first (b : byte) (pre post : bytes) :
  ~ In b pre -> search (pre ++ b :: post) [b] = Some (List.length pre).
Proof.
  induction pre as [|x pre IH]; intros Hn; simpl.
  - now rewrite byte_eqb_refl.
  - destruct (Byte.eqb x b) eqn:E.
    + apply byte_dec_bl in E. subst. exfalso. apply Hn. now left.
    + simpl. rewrite IH; [reflexivity|]. intros Hin. apply Hn. now right.
Qed.

Lemma search_byte_absent (b : byte) (d : bytes) :
  ~ In b d -> search d [b] = None.
Proof.
  induction d as [|x d IH]; intros Hn; simpl; [reflexivity|].
  destruct (Byte.eqb x b) eqn:E.
  - apply byte_dec_bl in E. subst. exfalso. apply Hn. now left.
  - simpl. rewrite IH; [reflexivity|]. intros Hin. apply Hn. now right.
Qed.

Lemma search_byte_Some (b : byte) (d : bytes) (i : nat) :
  search d [b] = Some i ->
  exists pre post, d = pre ++ b :: post /\ List.length pre = i /\ ~ In b pre.
Proof.
  revert i; induction d as [|x d IH]; intros i H; simpl in H; [discriminate|].
  destruct (Byte.eqb x b) eqn:E; simpl in H.
  - injection H as <-. apply byte_dec_bl in E. subst x.
    exists [], d. repeat split. intros [].
  - destruct (search d [b]) as [j|] eqn:Ej; [|discriminate].
    injection H as <-.
    destruct (IH j eq_refl) as (pre & post & -> & Hl & Hn).
    exists (x :: pre), post. repeat split; simpl; [now rewrite Hl|].
    intros [->|Hin]; [|now apply Hn].
    now rewrite byte_eqb_refl in E.
Qed.

(** Slices with bounds inside the data are [firstn] and [skipn]. *)
Lemma slice_to_firstn (d : bytes) (n : nat) :
  n <= List.length d -> slice_to d (Z.of_nat n) = firstn n d.
Proof.
  intros H. unfold slice_to, slice_bound.
  destruct (Z.ltb_spec (Z.of_nat n) 0); [lia|].
  rewrite Nat2Z.id. now rewrite Nat.min_r.
Qed.

Lemma slice_from_skipn (d : bytes) (n : nat) :
  n <= List.length d -> slice_from d (Z.of_nat n) = skipn n d.
Proof.
  intros H. unfold slice_from, slice_bound.
  destruct (Z.ltb_spec (Z.of_nat n) 0); [lia|].
  rewrite Nat2Z.id. now rewrite Nat.min_r.
Qed.

(** [data[:-4]] drops the last four bytes, or everything when there are
    fewer. *)
Lemma slice_to_minus4 (d : bytes) :
  slice_to d (-4) = firstn (List.length d - 4) d.
Proof.
  unfold slice_to, slice_bound. simpl.
  f_equal. lia.
Qed.

Lemma firstn_prefix (l1 l2 : bytes) : firstn (List.length l1) (l1 ++ l2) = l1.
Proof.
  rewrite <- (Nat.add_0_r (List.length l1)), firstn_app_2.
  simpl. apply app_nil_r.
Qed.

Lemma endswith_app (d suf : bytes) : endswith (d ++ suf) suf = true.
Proof.
  unfold endswith. rewrite rev_app_distr. apply startswith_app.
Qed.

End BytePrimitives.

(* ================================================================== *)
(** ** The read loop *)
(* ================================================================== *)

Section Framing.

Lemma B_gt : B ">" = [">"%byte].
Proof. reflexivity. Qed.

Lemma B_prompt : B "ch>" = ["c"%byte; "h"%byte] ++ [">"%byte].
Proof. reflexivity. Qed.

(** A pass that finds nothing waiting changes nothing. *)
Lemma read_loop_idle (buffer : bytes) (rest : list bytes) :
  read_loop buffer ([] :: rest) = read_loop buffer rest.
Proof. reflexivity. Qed.

(** A pass whose read leaves the buffer without the token [ch>] goes round
    again, whether or not a [>] is already there. *)
Lemma read_loop_no_prompt (buffer chunk : bytes) (rest : list bytes) :
  chunk <> [] ->
  search (buffer ++ chunk) (B "ch>") = None ->
  read_loop buffer (chunk :: rest) = read_loop (buffer ++ chunk) rest.
Proof.
  intros Hc Hs. destruct chunk as [|c chunk]; [congruence|].
  cbn [read_loop]. unfold index. rewrite Hs.
  now destruct (search (buffer ++ c :: chunk) (B ">")).
Qed.

(** A pass whose read brings the token into the buffer breaks out with the
    buffer up to its first [>]. *)
Lemma read_loop_prompt (buffer chunk : bytes) (rest : list bytes) (j : nat) :
  chunk <> [] ->
  search (buffer ++ chunk) (B "ch>") = Some j ->
  exists pre post,
    buffer ++ chunk = pre ++ ">"%byte :: post /\ ~ In ">"%byte pre /\
    read_loop buffer (chunk :: rest)
    = Break (pre ++ [">"%byte]) (skipn (j + 1) (buffer ++ chunk)) rest.
Proof.
  intros Hc Hs. destruct chunk as [|c chunk]; [congruence|].
  set (d := buffer ++ c :: chunk) in *.
  destruct (search_Some_split _ _ _ Hs) as (p & q & Hd & Hj).
  assert (Hgt : exists i, search d (B ">") = Some i).
  { rewrite Hd, B_prompt, B_gt.
    destruct (search_complete [">"%byte] (p ++ ["c"%byte; "h"%byte]) q)
      as (i & Hi & _).
    exists i. rewrite <- Hi. f_equal. now rewrite <- !app_assoc. }
  destruct Hgt as (i & Hi).
  rewrite B_gt in Hi.
  destruct (search_byte_Some _ _ _ Hi) as (pre & post & Hpre & Hl & Hn).
  exists pre, post. repeat split; [exact Hpre | exact Hn |].
  cbn [read_loop]. fold d. unfold index. rewrite B_gt, Hi, Hs.
  assert (Hlen : List.length d = List.length pre + S (List.length post)).
  { rewrite Hpre, length_app. reflexivity. }
  assert (Hlen' : j + 3 + List.length q = List.length d).
  { rewrite Hd, !length_app, Hj. unfold B. simpl. lia. }
  replace (Z.of_nat i + 1)%Z with (Z.of_nat (i + 1)) by lia.
  replace (Z.of_nat j + 1)%Z with (Z.of_nat (j + 1)) by lia.
  rewrite slice_to_firstn by lia. rewrite slice_from_skipn by lia.
  f_equal. rewrite Hpre.
  replace (i + 1) with (List.length (pre ++ [">"%byte]))
    by (rewrite length_app; simpl; lia).
  change (pre ++ ">"%byte :: post) with (pre ++ [">"%byte] ++ post).
  rewrite app_assoc. apply firstn_prefix.
Qed.


(** A reply whose only [>] closes a final [ch>] is put back together from
    any fragmentation. *)
Lemma read_loop_reassembles (polls : list bytes) :
  forall buffer pre,
    ~ In ">"%byte pre ->
    buffer ++ List.concat polls = pre ++ B "ch>" ->
    List.length buffer < List.length pre + 3 ->
    exists left rest,
      read_loop buffer polls = Break (pre ++ B "ch>") left rest /\
      List.concat rest = [].
Proof.
  induction polls as [|chunk polls IH]; intros buffer pre Hn Hcat Hlen.
  - simpl in Hcat. rewrite app_nil_r in Hcat. subst buffer.
    rewrite length_app in Hlen. unfold B in Hlen. simpl in Hlen. lia.
  - destruct chunk as [|c chunk].
    + rewrite read_loop_idle. now apply IH.
    + assert (Hpre : ~ In ">"%byte (pre ++ ["c"%byte; "h"%byte])).
      { intros Hin. apply in_app_or in Hin as [Hin|Hin]; [now apply Hn|].
        simpl in Hin. intuition discriminate. }
      cbn [List.concat] in Hcat. rewrite app_assoc in Hcat.
      destruct (List.concat polls) as [|y ys] eqn:Erest.
      * rewrite app_nil_r in Hcat.
        assert (Hgt : search (pre ++ B "ch>") [">"%byte]
                      = Some (List.length (pre ++ ["c"%byte; "h"%byte]))).
        { rewrite B_prompt, app_assoc. now apply search_byte_first. }
        cbn [read_loop]. rewrite Hcat. unfold index.
        rewrite B_gt, Hgt.
        destruct (search_complete (B "ch>") pre []) as (i & Hi & _).
        rewrite app_nil_r in Hi. rewrite Hi.
        exists (slice_from (pre ++ B "ch>") (Z.of_nat i + 1)), polls.
        split; [|exact Erest]. f_equal.
        replace (Z.of_nat (List.length (pre ++ ["c"%byte; "h"%byte])) + 1)%Z
          with (Z.of_nat (List.length (pre ++ B "ch>")))
          by (rewrite !length_app; unfold B; simpl; lia).
        rewrite slice_to_firstn by lia. apply firstn_all.
      * destruct (exists_last (l := y :: ys)) as (tl & z & Etl);
          [discriminate|].
        rewrite Etl, B_prompt, !app_assoc in Hcat.
        apply app_inj_tail in Hcat as [Hcat Hz].
        assert (Hb : ~ In ">"%byte (buffer ++ c :: chunk)).
        { intros Hin. apply Hpre. rewrite <- Hcat.
          apply in_or_app. now left. }
        cbn [read_loop]. unfold index. rewrite B_gt.
        rewrite (search_byte_absent _ _ Hb).
        apply IH; [exact Hn | |].
        -- rewrite Etl, B_prompt, !app_assoc. now rewrite Hcat, Hz.
        -- apply (f_equal (@List.length byte)) in Hcat.
           repeat rewrite length_app in Hcat. repeat rewrite length_app.
           simpl in Hcat |- *. lia.
Qed.

(** With nothing more to read the loop never breaks. *)
Lemma read_loop_silent (polls : list bytes) (buffer : bytes) :
  List.concat polls = [] -> read_loop buffer polls = Spin buffer.
Proof.
  induction polls as [|chunk polls IH]; intros H; [reflexivity|].
  cbn [List.concat] in H. apply app_eq_nil in H as [-> H].
  rewrite read_loop_idle. now apply IH.
Qed.

(** One read that brings a whole reply and more: the loop breaks with the
    reply, whatever follows it. *)
Lemma read_loop_first_frame (pre tail : bytes) (rest : list bytes) :
  ~ In ">"%byte pre ->
  exists left,
    read_loop [] ((pre ++ B "ch>" ++ tail) :: rest)
    = Break (pre ++ B "ch>") left rest.
Proof.
  intros Hn.
  assert (Hc : pre ++ B "ch>" ++ tail <> []).
  { destruct pre; discriminate. }
  destruct (search_complete (B "ch>") pre tail) as (j & Hj & _).
  destruct (read_loop_prompt [] _ rest j Hc Hj)
    as (pre' & post' & Hd & Hn' & Hr).
  exists (skipn (j + 1) (pre ++ B "ch>" ++ tail)).
  eapply eq_trans; [exact Hr|]. cbn [app] in Hd |- *. f_equal.
  assert (Hpre : ~ In ">"%byte (pre ++ ["c"%byte; "h"%byte])).
  { intros Hin. apply in_app_or in Hin as [Hin|Hin]; [now apply Hn|].
    simpl in Hin. intuition discriminate. }
  assert (Hs1 := search_byte_first ">"%byte _ tail Hpre).
  assert (Hs2 := search_byte_first ">"%byte _ post' Hn').
  rewrite <- Hd in Hs2.
  replace ((pre ++ ["c"%byte; "h"%byte]) ++ ">"%byte :: tail)
    with (pre ++ B "ch>" ++ tail) in Hs1
    by (rewrite B_prompt, <- !app_assoc; reflexivity).
  rewrite Hs1 in Hs2. injection Hs2 as Hlen.
  assert (Hf : firstn (List.length (pre' ++ [">"%byte]))
                 (pre ++ B "ch>" ++ tail) = pre' ++ [">"%byte]).
  { rewrite Hd. change (pre' ++ ">"%byte :: post')
      with (pre' ++ [">"%byte] ++ post').
    rewrite app_assoc. apply firstn_prefix. }
  rewrite <- Hf, app_assoc.
  replace (List.length (pre' ++ [">"%byte]))
    with (List.length (pre ++ B "ch>"))
    by (rewrite !length_app in *; unfold B; simpl in *; lia).
  apply firstn_prefix.
Qed.

End Framing.

(* ================================================================== *)
(** ** The normaliser and the send/receive wrapper *)
(* ================================================================== *)

Section Normaliser.

Lemma search_None_iff (sub d : bytes) :
  search d sub = None <-> ~ occurs_in sub d.
Proof.
  split.
  - intros H (a & b & E). now apply (search_None_no_split _ _ a b H).
  - intros H. destruct (search d sub) as [i|] eqn:E; [|reflexivity].
    exfalso. apply H.
    destruct (search_Some_split _ _ _ E) as (a & b & Hd & _).
    now exists a, b.
Qed.

Lemma endswith_true_iff (d suf : bytes) :
  endswith d suf = true <-> ends_with d suf.
Proof.
  split.
  - intros H. apply startswith_split in H as [r Hr].
    exists (rev r). apply (f_equal (@rev byte)) in Hr.
    rewrite rev_involutive, rev_app_distr, rev_involutive in Hr.
    exact Hr.
  - intros [a ->]. apply endswith_app.
Qed.

Lemma endswith_false_iff (d suf : bytes) :
  endswith d suf = false <-> ~ ends_with d suf.
Proof.
  rewrite <- endswith_true_iff. now destruct (endswith d suf).
Qed.

(** The first line break of [echo ++ '\r\n' ++ rest] sits right after
    [echo] when [echo] has none. *)
Lemma search_crlf_first (echo rest : bytes) :
  search echo bCRLF = None ->
  search (echo ++ bCRLF ++ rest) bCRLF = Some (List.length echo).
Proof.
  induction echo as [|a e IH]; intros H.
  - apply search_here, (startswith_app bCRLF).
  - assert (Hs : startswith (a :: e) bCRLF = false).
    { cbn [search] in H. now destruct (startswith (a :: e) bCRLF). }
    rewrite (search_later _ _ _ Hs) in H.
    destruct (search e bCRLF) eqn:He; [discriminate|].
    change ((a :: e) ++ bCRLF ++ rest) with (a :: (e ++ bCRLF ++ rest)).
    assert (Hs' : startswith (a :: (e ++ bCRLF ++ rest)) bCRLF = false).
    { destruct e as [|x e]; simpl in Hs |- *.
      - now rewrite andb_false_r.
      - exact Hs. }
    rewrite (search_later _ _ _ Hs'), IH by reflexivity. reflexivity.
Qed.

Lemma cleanReturn_after_echo (echo rest : bytes) :
  ~ occurs_in bCRLF echo ->
  cleanReturn (echo ++ bCRLF ++ rest)
  = if endswith rest (B "ch>")
    then firstn (List.length rest - 4) rest else rest.
Proof.
  intros H. apply search_None_iff in H.
  unfold cleanReturn, find. rewrite (search_crlf_first _ rest H).
  destruct (Z.eqb_spec (Z.of_nat (List.length echo)) (-1)); [lia|].
  cbn [negb].
  replace (Z.of_nat (List.length echo) + 2)%Z
    with (Z.of_nat (List.length (echo ++ bCRLF)))
    by (rewrite length_app; simpl; lia).
  rewrite slice_from_skipn
    by (rewrite !length_app; simpl; lia).
  rewrite (app_assoc echo bCRLF rest), skipn_app, skipn_all, Nat.sub_diag.
  cbn [skipn app]. now rewrite slice_to_minus4.
Qed.

Lemma cleanReturn_without_echo (data : bytes) :
  ~ occurs_in bCRLF data ->
  cleanReturn data
  = if endswith data (B "ch>")
    then firstn (List.length data - 4) data else data.
Proof.
  intros H. apply search_None_iff in H.
  unfold cleanReturn, find. rewrite H. cbn [Z.eqb negb].
  now rewrite slice_to_minus4.
Qed.

(** What one exchange does to the world. *)
Lemma tinySASerial_run (writebyte : string) (w : World) :
  tinySASerial writebyte false w
  = match read_loop [] (pending (ser w)) with
    | Break complete _ rest =>
        (Ok (cleanReturn complete),
         mkWorld (mkSerial (written (ser w) ++ encode_utf8 writebyte) rest)
                 (stdout w))
    | Spin _ =>
        (Diverge,
         mkWorld (mkSerial (written (ser w) ++ encode_utf8 writebyte) [])
                 (stdout w))
    end.
Proof.
  unfold tinySASerial, bind, ser_write, getSerialReturn, ret. cbn.
  now destruct (read_loop [] (pending (ser w))).
Qed.

Lemma tinySASerial_written (writebyte : string) (w : World) :
  written (ser (snd (tinySASerial writebyte false w)))
  = written (ser w) ++ encode_utf8 writebyte.
Proof.
  rewrite tinySASerial_run. now destruct (read_loop [] (pending (ser w))).
Qed.

Lemma tinySASerial_stdout (writebyte : string) (w : World) :
  stdout (snd (tinySASerial writebyte false w)) = stdout w.
Proof.
  rewrite tinySASerial_run. now destruct (read_loop [] (pending (ser w))).
Qed.

End Normaliser.

(* ================================================================== *)
(** ** Properties of the framing engine and the normaliser *)
(* ================================================================== *)

Section FramingProperties.

(** C1 (as the code behaves). When one read brings a complete reply
    followed by further bytes (the start, or the whole, of a pipelined
    reply), the call returns the first reply, and the state it leaves holds
    only the reads not yet made: the bytes after the first reply were
    assigned to the local [buffer] and are gone with it. The next call starts
    from an empty buffer, so with nothing more to read it never returns. *)
Theorem pipelined_remainder_is_dropped
    (w : World) (pre tail : bytes) (rest : list bytes) :
  ~ In ">"%byte pre ->
  pending (ser w) = (pre ++ B "ch>" ++ tail) :: rest ->
  let w' := mkWorld (mkSerial (written (ser w)) rest) (stdout w) in
  getSerialReturn w = (Ok (pre ++ B "ch>"), w') /\
  (List.concat rest = [] -> fst (getSerialReturn w') = Diverge).
Proof.
  intros Hn Hp. cbv zeta. split.
  - unfold getSerialReturn. rewrite Hp.
    destruct (read_loop_first_frame pre tail rest Hn) as (left & ->).
    reflexivity.
  - intros Hrest. unfold getSerialReturn. cbn [ser pending].
    now rewrite (read_loop_silent rest [] Hrest).
Qed.

Lemma pipelined_remainder_is_dropped_witness :
  let frame1 := B "version" ++ bCRLF ++ B "1.2.3" ++ bCRLF ++ B "ch>" in
  let frame2 := B "vbat" ++ bCRLF ++ B "4132 mV" ++ bCRLF ++ B "ch>" in
  read_loop [] [frame1 ++ frame2] = Break frame1 (B "h>" ++ frame2) [] /\
  getSerialReturn (world [] [frame1 ++ frame2]) = (Ok frame1, world [] []) /\
  fst (getSerialReturn (world [] [])) = Diverge.
Proof.
  cbv zeta. split; [reflexivity|].
  assert (Hn : ~ In ">"%byte (B "version" ++ bCRLF ++ B "1.2.3" ++ bCRLF)).
  { simpl. intuition discriminate. }
  destruct (pipelined_remainder_is_dropped
              (world [] [(B "version" ++ bCRLF ++ B "1.2.3" ++ bCRLF)
                         ++ B "ch>"
                         ++ B "vbat" ++ bCRLF ++ B "4132 mV" ++ bCRLF
                         ++ B "ch>"])
              (B "version" ++ bCRLF ++ B "1.2.3" ++ bCRLF)
              (B "vbat" ++ bCRLF ++ B "4132 mV" ++ bCRLF ++ B "ch>")
              [] Hn eq_refl) as (H1 & H2).
  split; [exact H1 | exact (H2 eq_refl)].
Defined.




(** C3 (counterexample). On the reply to [version] the part after the first
    line break is [1.2.3\r\nch>]; taking off exactly the three bytes [ch>]
    would leave [1.2.3\r\n], but [cleanReturn] gives [1.2.3\r]. *)
Lemma cleanReturn_strips_more_than_prompt :
  let frame := B "version" ++ bCRLF ++ B "1.2.3" ++ bCRLF ++ B "ch>" in
  cleanReturn frame = B "1.2.3" ++ ["013"%byte] /\
  cleanReturn frame <> B "1.2.3" ++ bCRLF /\
  cleanReturn frame ++ B "ch>" <> B "1.2.3" ++ bCRLF ++ B "ch>".
Proof.
  cbv zeta. split; [reflexivity|]. split; discriminate.
Qed.

(** C3 (amended). [cleanReturn] removes everything up to and including the
    first line break; when what is left ends with the prompt token [ch>] it
    drops the last four bytes, that is the token and the one byte before it
    (everything, when the token is all there is); when the line break or the
    prompt token is absent, that end is returned unchanged. *)
Theorem cleanReturn_drops_echo_and_four (data rest : bytes) :
  after_first_line_break data rest ->
  (forall payload x,
     rest = payload ++ x :: B "ch>" -> cleanReturn data = payload) /\
  (rest = B "ch>" -> cleanReturn data = []) /\
  (~ ends_with rest (B "ch>") -> cleanReturn data = rest).
Proof.
  intros Hafter.
  assert (Hc : cleanReturn data
               = if endswith rest (B "ch>")
                 then firstn (List.length rest - 4) rest else rest).
  { destruct Hafter as [(echo & Hno & ->) | (Hno & ->)].
    - now apply cleanReturn_after_echo.
    - now apply cleanReturn_without_echo. }
  rewrite Hc. repeat split.
  - intros payload x ->.
    change (payload ++ x :: B "ch>") with (payload ++ [x] ++ B "ch>").
    rewrite (app_assoc payload [x]), endswith_app, <- app_assoc.
    replace (List.length (payload ++ [x] ++ B "ch>") - 4)
      with (List.length payload)
      by (rewrite !length_app; unfold B; simpl; lia).
    apply firstn_prefix.
  - intros ->. reflexivity.
  - intros Hno. apply endswith_false_iff in Hno. now rewrite Hno.
Qed.

Lemma cleanReturn_drops_echo_and_four_witness :
  let frame := B "version" ++ bCRLF ++ B "1.2.3" ++ bCRLF ++ B "ch>" in
  after_first_line_break frame (B "1.2.3" ++ bCRLF ++ B "ch>") /\
  cleanReturn frame = B "1.2.3" ++ ["013"%byte].
Proof.
  cbv zeta.
  assert (H : after_first_line_break
                (B "version" ++ bCRLF ++ B "1.2.3" ++ bCRLF ++ B "ch>")
                (B "1.2.3" ++ bCRLF ++ B "ch>")).
  { left. exists (B "version"). split; [|reflexivity].
    apply search_None_iff. reflexivity. }
  split; [exact H|].
  destruct (cleanReturn_drops_echo_and_four _ _ H) as (Hp & _ & _).
  exact (Hp (B "1.2.3" ++ ["013"%byte]) "010"%byte eq_refl).
Defined.

(** C4. However the reply [version\r\n1.2.3\r\nch>] is cut into reads
    (idle polls included), [version] writes [version\r\n], consumes the
    whole reply and returns the payload [1.2.3\r]. *)
Theorem version_payload_any_fragmentation (w : World) :
  List.concat (pending (ser w))
  = B "version" ++ bCRLF ++ B "1.2.3" ++ bCRLF ++ B "ch>" ->
  exists w',
    version w = (Ok (B "1.2.3" ++ ["013"%byte]), w') /\
    written (ser w') = written (ser w) ++ B "version" ++ bCRLF /\
    List.concat (pending (ser w')) = [] /\
    stdout w' = stdout w.
Proof.
  intros Hcat.
  set (pre := B "version" ++ bCRLF ++ B "1.2.3" ++ bCRLF).
  assert (Hn : ~ In ">"%byte pre).
  { unfold pre. simpl. intuition discriminate. }
  destruct (read_loop_reassembles (pending (ser w)) [] pre Hn)
    as (left & rest & Hr & Hrest).
  - exact Hcat.
  - simpl. lia.
  - unfold version. rewrite tinySASerial_run, Hr.
    eexists. split; [reflexivity|]. cbn. now rewrite Hrest.
Qed.

Lemma version_payload_any_fragmentation_witness :
  let w := world [] [B "version"; []; bCRLF ++ B "1.2"; B ".3" ++ bCRLF ++ B "ch>"] in
  List.concat (pending (ser w))
  = B "version" ++ bCRLF ++ B "1.2.3" ++ bCRLF ++ B "ch>" /\
  exists w',
    version w = (Ok (B "1.2.3" ++ ["013"%byte]), w') /\
    written (ser w') = written (ser w) ++ B "version" ++ bCRLF /\
    List.concat (pending (ser w')) = [] /\
    stdout w' = stdout w.
Proof.
  cbv zeta. split; [reflexivity|].
  apply version_payload_any_fragmentation. reflexivity.
Defined.

(** C9. On a byte sequence with no framing left in it (no line break and no
    trailing [ch>]) [cleanReturn] changes nothing, so applying it twice is
    the same as applying it once. *)
Theorem cleanReturn_idempotent (x : bytes) :
  ~ occurs_in bCRLF x ->
  ~ ends_with x (B "ch>") ->
  cleanReturn x = x /\ cleanReturn (cleanReturn x) = cleanReturn x.
Proof.
  intros Hnl Hpr.
  assert (H : cleanReturn x = x).
  { rewrite cleanReturn_without_echo by exact Hnl.
    apply endswith_false_iff in Hpr. now rewrite Hpr. }
  split; [exact H | now rewrite !H].
Qed.

Lemma cleanReturn_idempotent_witness :
  let x := B "1.2.3" ++ ["013"%byte] in
  ~ occurs_in bCRLF x /\ ~ ends_with x (B "ch>") /\
  cleanReturn (cleanReturn x) = cleanReturn x.
Proof.
  cbv zeta.
  assert (H1 : ~ occurs_in bCRLF (B "1.2.3" ++ ["013"%byte])).
  { apply search_None_iff. reflexivity. }
  assert (H2 : ~ ends_with (B "1.2.3" ++ ["013"%byte]) (B "ch>")).
  { apply endswith_false_iff. reflexivity. }
  split; [exact H1|]. split; [exact H2|].
  exact (proj2 (cleanReturn_idempotent _ H1 H2)).
Defined.

End FramingProperties.

(* ================================================================== *)
(** ** The command methods *)
(* ================================================================== *)

Section Dispatch.

Lemma np_contains_In (z : Z) (arr : list Z) :
  np_contains (PInt z) arr = true <-> In z arr.
Proof.
  unfold np_contains. rewrite existsb_exists. split.
  - intros (x & Hin & Hx). simpl in Hx. apply Z.eqb_eq in Hx. now subst.
  - intros Hin. exists z. split; [exact Hin|]. simpl. apply Z.eqb_refl.
Qed.

Lemma np_arange_In (lo hi z : Z) :
  In z (np_arange lo hi 1) <-> (lo <= z < hi)%Z.
Proof.
  unfold np_arange. rewrite in_map_iff.
  replace ((hi - lo + 1 - 1) / 1)%Z with (hi - lo)%Z
    by (rewrite Z.div_1_r; lia).
  split.
  - intros (k & <- & Hk). apply in_seq in Hk. lia.
  - intros H. exists (Z.to_nat (z - lo)). split; [lia|].
    apply in_seq. lia.
Qed.

Lemma np_contains_arange (lo hi z : Z) :
  np_contains (PInt z) (np_arange lo hi 1) = (lo <=? z)%Z && (z <? hi)%Z.
Proof.
  apply eq_true_iff_eq.
  rewrite np_contains_In, np_arange_In, andb_true_iff, Z.leb_le, Z.ltb_lt.
  reflexivity.
Qed.

Lemma np_contains_not_int (v : pyval) (arr : list Z) :
  isinstance_int v = false -> np_contains v arr = false.
Proof.
  intros H. unfold np_contains. induction arr as [|x arr IH]; simpl.
  - reflexivity.
  - rewrite IH. now destruct v.
Qed.

Lemma bind_eval {A} (o : option bool) (k : bool -> M A) (w : World) :
  bind (eval o) k w
  = match o with
    | Some b => k b w
    | None => (Exn TypeError, w)
    end.
Proof. now destruct o. Qed.

Lemma bind_print {A} (s : string) (k : unit -> M A) (w : World) :
  bind (print s) k w = k tt (mkWorld (ser w) (stdout w ++ [PrintStr s])).
Proof. reflexivity. Qed.

(** An exchange followed by a [print]. *)
Lemma tinySASerial_then_print (writebyte t : string) (w : World) :
  bind (tinySASerial writebyte false) (fun m => bind (print t) (fun _ => ret m)) w
  = match read_loop [] (pending (ser w)) with
    | Break complete _ rest =>
        (Ok (cleanReturn complete),
         mkWorld (mkSerial (written (ser w) ++ encode_utf8 writebyte) rest)
                 (stdout w ++ [PrintStr t]))
    | Spin _ =>
        (Diverge,
         mkWorld (mkSerial (written (ser w) ++ encode_utf8 writebyte) [])
                 (stdout w))
    end.
Proof.
  unfold bind at 1. rewrite tinySASerial_run.
  now destruct (read_loop [] (pending (ser w))).
Qed.

End Dispatch.

(** Proof steps shared by the case analyses over the methods. *)

Ltac unfold_commands :=
  unfold agc, attenuate, caloutput, dac, data, deviceid, ext_gain, freq,
    setIF, if1, levelchange, load, lna, lna2, output, rbw, recall, refresh,
    save, selftest, spur, vbat_offset;
  cbv zeta.

Ltac split_guards :=
  repeat first
    [ rewrite bind_eval
    | match goal with
      | |- context [if ?b then _ else _] => destruct b eqn:?
      | |- context [match ?o with Some _ => _ | None => _ end] =>
          destruct o as [[|]|] eqn:?
      end ].

Ltac run_exchange :=
  rewrite ?bind_print, ?tinySASerial_then_print, ?tinySASerial_run;
  match goal with
  | |- context [read_loop [] ?p] => destruct (read_loop [] p)
  end; reflexivity.

Ltac guard_facts :=
  rewrite ?np_contains_arange in *;
  rewrite ?np_contains_not_int in * by reflexivity;
  cbn [py_eq py_in existsb is_str is_none int_in int_among on_off
       isinstance_int and_then or_else between documented_domain] in *;
  unfold or_else in *;
  repeat match goal with
    | H : context [if ?b then _ else _] |- _ => destruct b eqn:?
    end;
  repeat match goal with
    | H : Some _ = Some _ |- _ => injection H as H
    | H : None = Some _ |- _ => discriminate H
    | H : Some _ = None |- _ => discriminate H
    end;
  rewrite ?orb_true_iff, ?orb_false_iff, ?andb_true_iff, ?andb_false_iff,
    ?Z.eqb_eq, ?Z.eqb_neq, ?Z.leb_le, ?Z.leb_gt, ?Z.ltb_lt, ?Z.ltb_ge,
    ?String.eqb_eq, ?String.eqb_neq in *.

Section DispatchCases.

(** Every call ends in one of three ways: the rejecting branch (the value of
    [rejection_value], one line printed, the port untouched), a [TypeError]
    out of the guard (nothing touched), or an exchange that first writes the
    method's wire name, an argument part and the line break. *)
Lemma call_cases (c : command) (v : pyval) (w : World) :
  (exists msg,
     call c v w
     = (Ok (rejection_value c), mkWorld (ser w) (stdout w ++ [PrintStr msg]))) \/
  call c v w = (Exn TypeError, w) \/
  (exists s,
     written (ser (snd (call c v w)))
     = written (ser w) ++ encode_utf8 (wire_name c ++ s ++ CRLF)).
Proof.
  destruct c; cbn [call rejection_value wire_name]; unfold_commands;
    split_guards;
    first
      [ solve [left; eexists; reflexivity]
      | solve [right; left; reflexivity]
      | solve [right; right; exists (" " ++ str v)%string; run_exchange]
      | solve [right; right; exists ""%string; run_exchange]
      | solve [right; right; exists (" " ++ str_builtin_id)%string;
               run_exchange] ].
Qed.

Lemma wire_nonempty (c : command) (s : string) :
  encode_utf8 (wire_name c ++ s ++ CRLF) <> [].
Proof. destruct c; discriminate. Qed.

(** A call that returns with nothing new written took the rejecting
    branch. *)
Lemma call_unwritten (c : command) (v : pyval) (w w' : World) (r : bytes) :
  call c v w = (Ok r, w') ->
  written (ser w') = written (ser w) ->
  exists msg,
    r = rejection_value c /\
    w' = mkWorld (ser w) (stdout w ++ [PrintStr msg]).
Proof.
  intros Hcall Hw.
  destruct (call_cases c v w) as [(msg & H) | [H | (s & H)]].
  - rewrite H in Hcall. injection Hcall as <- <-. now exists msg.
  - rewrite H in Hcall. discriminate.
  - rewrite Hcall in H. cbn [snd] in H. rewrite Hw in H.
    rewrite <- (app_nil_r (written (ser w))) in H at 1.
    apply app_inv_head in H. symmetry in H.
    now apply wire_nonempty in H.
Qed.

(** Outside the documented domain a call leaves the port alone, for every
    method but [rbw], and for [rbw] too unless the argument is an integer
    in 3000..600000. *)
Lemma no_io_outside_documented_domain (c : command) (v : pyval) (w : World) :
  documented_domain c v = false ->
  (c = Cmd_rbw -> forall z, v = PInt z -> ~ (3000 <= z <= 600000)%Z) ->
  ser (snd (call c v w)) = ser w.
Proof.
  intros Hdom Hrbw.
  destruct c; destruct v as [|z|s]; cbn [call]; unfold_commands;
    split_guards; try reflexivity; exfalso; guard_facts.
  all: try (specialize (Hrbw eq_refl _ eq_refl)).
  all: solve [intuition (subst; try discriminate; try congruence; lia)].
Qed.

End DispatchCases.

(* ================================================================== *)
(** ** Properties of the command methods *)
(* ================================================================== *)

(** Exhibit a call of method [m] on argument [a] that goes through and is
    answered with the echoed line and the prompt only. *)
Ltac answer_empty m a :=
  let sent :=
    eval vm_compute in (written (ser (snd (call m a (world [] []))))) in
  exists a, sent;
  split; [discriminate | split; vm_compute; reflexivity].

Section DispatchProperties.

(** What the method writes when a call goes through, for every method but
    [dac] and [vbat_offset] and every argument but [None]: the wire name, a
    space, [str] of the argument and the line break. *)
Lemma wire_format (c : command) (v : pyval) (w : World) :
  c <> Cmd_dac -> c <> Cmd_vbat_offset -> v <> PNone ->
  written (ser (snd (call c v w))) <> written (ser w) ->
  written (ser (snd (call c v w)))
  = written (ser w) ++ encode_utf8 (wire_name c ++ " " ++ str v ++ CRLF).
Proof.
  intros Hdac Hvbat Hnone.
  destruct c; try congruence; cbn [call wire_name]; unfold_commands;
    split_guards; intros Hw;
    try (exfalso; apply Hw; reflexivity);
    try (destruct v; try discriminate; congruence);
    run_exchange.
Qed.

(** C5 (as the code behaves). [rbw] documents its numeric argument as 3..600
    (kHz; the error text says 0 - 600) but its guard tests 3000..600000:
    [rbw(3000)] lies outside the documented domain and is nevertheless
    written to the port, and the reply is read. *)
Theorem rbw_sends_outside_documented_domain :
  documented_domain Cmd_rbw (PInt 3000) = false /\
  (forall w,
     written (ser (snd (call Cmd_rbw (PInt 3000) w)))
     = written (ser w) ++ B "rbw 3000" ++ bCRLF) /\
  call Cmd_rbw (PInt 3000) (world [] [B "rbw 3000" ++ bCRLF ++ B "ch>"])
  = (Ok (B ""), world (B "rbw 3000" ++ bCRLF) []).
Proof.
  split; [reflexivity|]. split; [|reflexivity].
  intros w. cbn [call]. unfold rbw. cbn [py_eq].
  rewrite bind_eval. cbn -[tinySASerial]. apply tinySASerial_written.
Qed.

(** C7 (as the code behaves). [attenuate] documents [auto|0-31], but its
    guard is membership in [np.arange(0, 31, 1)], which stops at 30: 31 is
    rejected like -1, 32 and 99 (empty value, error line, port untouched),
    while 0, 15 and 30 are formatted and written. *)
Theorem attenuate_rejects_31 (w : World) :
  let rejected :=
    (Ok (B ""),
     mkWorld (ser w)
       (stdout w ++ [PrintStr "ERROR: attenuate() takes vals [0 - 31]|auto"])) in
  documented_domain Cmd_attenuate (PInt 31) = true /\
  attenuate (PInt 31) w = rejected /\
  attenuate (PInt (-1)) w = rejected /\
  attenuate (PInt 32) w = rejected /\
  attenuate (PInt 99) w = rejected /\
  written (ser (snd (attenuate (PInt 0) w)))
  = written (ser w) ++ B "attenuate 0" ++ bCRLF /\
  written (ser (snd (attenuate (PInt 15) w)))
  = written (ser w) ++ B "attenuate 15" ++ bCRLF /\
  written (ser (snd (attenuate (PInt 30) w)))
  = written (ser w) ++ B "attenuate 30" ++ bCRLF.
Proof.
  cbv zeta. repeat split; try reflexivity;
    unfold attenuate; cbv zeta; rewrite np_contains_arange;
    cbn -[tinySASerial]; apply tinySASerial_written.
Qed.

(** C8 (as the code behaves). [dac] and [vbat_offset] format [str(id)], the
    text of Python's builtin [id], in place of [str(val)]: [dac(5)] writes
    [dac <built-in function id>\r\n], not [dac 5\r\n], and likewise
    [vbat_offset(5)]. *)
Theorem dac_writes_builtin_id (w : World) :
  written (ser (snd (dac (PInt 5) w)))
  = written (ser w) ++ B "dac <built-in function id>" ++ bCRLF /\
  written (ser (snd (dac (PInt 5) w)))
  <> written (ser w) ++ B "dac 5" ++ bCRLF /\
  written (ser (snd (vbat_offset (PInt 5) w)))
  = written (ser w) ++ B "vbat_offset <built-in function id>" ++ bCRLF /\
  written (ser (snd (vbat_offset (PInt 5) w)))
  <> written (ser w) ++ B "vbat_offset 5" ++ bCRLF.
Proof.
  assert (Hd : written (ser (snd (dac (PInt 5) w)))
               = written (ser w) ++ B "dac <built-in function id>" ++ bCRLF).
  { unfold dac. cbn [py_eq]. rewrite bind_eval.
    cbn -[tinySASerial bind print ret].
    rewrite tinySASerial_then_print.
    now destruct (read_loop [] (pending (ser w))). }
  assert (Hv : written (ser (snd (vbat_offset (PInt 5) w)))
               = written (ser w)
                 ++ B "vbat_offset <built-in function id>" ++ bCRLF).
  { unfold vbat_offset. cbn [py_eq]. rewrite bind_eval.
    cbn -[tinySASerial bind print ret].
    rewrite tinySASerial_then_print.
    now destruct (read_loop [] (pending (ser w))). }
  rewrite Hd, Hv. repeat split.
  - intros H. apply app_inv_head in H. discriminate.
  - intros H. apply app_inv_head in H. discriminate.
Qed.

(** C10. The rejecting branches do not agree on one value. [agc] answers
    every argument outside [0..7|auto] with the five bytes [ERROR]; every
    other checking method answers a call that returns without having
    written anything with the empty byte string, and each of them has
    arguments it so rejects. *)
Theorem rejection_value_not_uniform :
  (forall v w,
     documented_domain Cmd_agc v = false ->
     agc v w
     = (Ok (B "ERROR"),
        mkWorld (ser w)
          (stdout w ++ [PrintStr "ERROR: agc() takes vals [0 - 7]|auto"]))) /\
  (forall c v w r w',
     c <> Cmd_agc ->
     call c v w = (Ok r, w') ->
     written (ser w') = written (ser w) ->
     r = B "") /\
  (forall c,
     c <> Cmd_agc ->
     exists v, forall w, exists msg,
       call c v w = (Ok (B ""), mkWorld (ser w) (stdout w ++ [PrintStr msg]))) /\
  B "ERROR" <> B "".
Proof.
  repeat split.
  - intros v w Hdom. unfold agc. cbv zeta.
    destruct v as [|z|s]; split_guards; try reflexivity; exfalso;
      guard_facts;
      solve [intuition (subst; try discriminate; try congruence; lia)].
  - intros c v w r w' Hc Hcall Hw.
    destruct (call_unwritten c v w w' r Hcall Hw) as (msg & -> & _).
    now destruct c.
  - intros c Hc.
    destruct c; try congruence;
      first [ exists (PStr "?"); intros w; eexists; reflexivity
            | exists (PInt 1); intros w; eexists; reflexivity ].
  - discriminate.
Qed.

Lemma rejection_value_not_uniform_witness :
  let w := world [] [] in
  let w' :=
    mkWorld (ser w)
      [PrintStr "ERROR: attenuate() takes vals [0 - 31]|auto"] in
  documented_domain Cmd_agc (PInt 8) = false /\
  fst (agc (PInt 8) w) = Ok (B "ERROR") /\
  Cmd_attenuate <> Cmd_agc /\
  call Cmd_attenuate (PInt 99) w = (Ok [], w') /\
  written (ser w') = written (ser w) /\
  ([] : bytes) = B "".
Proof.
  cbv zeta.
  destruct rejection_value_not_uniform as (Hagc & Hother & _ & _).
  assert (Hd : documented_domain Cmd_agc (PInt 8) = false) by reflexivity.
  assert (Hc : Cmd_attenuate <> Cmd_agc) by discriminate.
  split; [exact Hd|]. split; [now rewrite (Hagc (PInt 8) (world [] []) Hd)|].
  split; [exact Hc|]. split; [reflexivity|]. split; [reflexivity|].
  exact (Hother Cmd_attenuate (PInt 99) (world [] []) [] _ Hc eq_refl eq_refl).
Defined.

(** C6 (counterexample). [attenuate(99)] is rejected without touching the
    port and returns the empty byte string; [attenuate(15)], answered by the
    device with its echo and the prompt only, returns the same empty byte
    string. *)
Lemma rejection_equals_empty_reply :
  let quiet := world [] [] in
  let replying := world [] [B "attenuate 15" ++ bCRLF ++ B "ch>"] in
  documented_domain Cmd_attenuate (PInt 99) = false /\
  ser (snd (attenuate (PInt 99) quiet)) = ser quiet /\
  documented_domain Cmd_attenuate (PInt 15) = true /\
  ser (snd (attenuate (PInt 15) replying))
  = mkSerial (B "attenuate 15" ++ bCRLF) [] /\
  fst (attenuate (PInt 99) quiet) = fst (attenuate (PInt 15) replying).
Proof. cbv zeta. repeat split. Qed.

(** A call that returns with nothing new written took the rejecting
    branch, whose printed line is the method's own error text. *)
Lemma call_rejects_with_text
    (c : command) (v : pyval) (w w' : World) (r : bytes) :
  call c v w = (Ok r, w') ->
  written (ser w') = written (ser w) ->
  r = rejection_value c /\
  w' = mkWorld (ser w) (stdout w ++ [PrintStr (error_text c)]).
Proof.
  destruct c; cbn [call rejection_value error_text]; unfold_commands;
    split_guards; intros H Hw;
    first
      [ discriminate H
      | solve [injection H as <- <-; split; reflexivity]
      | exfalso; revert H Hw;
        rewrite ?bind_print, ?tinySASerial_then_print, ?tinySASerial_run;
        match goal with
        | |- context [read_loop [] ?p] => destruct (read_loop [] p)
        end;
        intros H Hw; [|discriminate H];
        injection H as _ <-; cbn [ser written] in Hw;
        apply (f_equal (@List.length byte)) in Hw;
        rewrite length_app in Hw; cbn in Hw; lia ].
Qed.

(** A call that returns having written has printed what [announce] lists,
    no more. *)
Lemma call_through_prints
    (c : command) (v : pyval) (w w' : World) (r : bytes) :
  call c v w = (Ok r, w') ->
  written (ser w') <> written (ser w) ->
  stdout w' = stdout w ++ announce c v.
Proof.
  destruct c; cbn [call announce]; unfold_commands;
    split_guards; intros H Hw;
    first
      [ discriminate H
      | solve [exfalso; injection H as _ <-; apply Hw; reflexivity]
      | revert H;
        rewrite ?bind_print, ?tinySASerial_then_print, ?tinySASerial_run;
        match goal with
        | |- context [read_loop [] ?p] => destruct (read_loop [] p)
        end;
        intros H; [|discriminate H];
        injection H as _ <-; cbn [stdout ser];
        rewrite ?app_nil_r; reflexivity ].
Qed.

(** The error text is never among the lines of a call that goes through. *)
Lemma announce_not_error (c : command) (v : pyval) :
  ~ In (PrintStr (error_text c)) (announce c v).
Proof.
  destruct c; cbn [announce error_text];
    try destruct (py_eq v PNone); cbn;
    intros H; repeat (destruct H as [H|H]; [discriminate H|]); exact H.
Qed.

(** Every method but [agc] returns the empty byte string from some call that
    goes through and is answered with the echoed line and the prompt only. *)
Lemma empty_reply_to_accepted_call (c : command) :
  c <> Cmd_agc ->
  exists v2 sent,
    sent <> [] /\
    fst (call c v2 (world [] [sent ++ B "ch>"])) = Ok (B "") /\
    ser (snd (call c v2 (world [] [sent ++ B "ch>"]))) = mkSerial sent [].
Proof.
  intros Hc.
  destruct c; try congruence;
    lazymatch goal with
    | _ : ?m <> Cmd_agc |- _ =>
        first [ answer_empty m (PInt 0) | answer_empty m (PInt 1)
              | answer_empty m (PInt 100000) | answer_empty m (PStr "on")
              | answer_empty m (PStr "auto") | answer_empty m PNone ]
    end.
Qed.

(** C6 (amended). A call that returns without having written anything has
    not read either, has printed exactly one line, the method's own error
    text, and returns the fixed value of the method's rejecting branch.
    Except for [agc] that value is the empty byte string, which is also what
    the same method returns from a call that goes through when the device
    answers with the echoed line and the prompt only: the returned value
    alone does not tell the two apart. The console does: a call that returns
    having written has printed nothing, or (for [dac], [deviceid] and
    [vbat_offset] given a value, and for [selftest]) one progress line, and
    never the error text. *)
Theorem rejection_reported_on_stdout_only
    (c : command) (v : pyval) (w w' : World) (r : bytes) :
  call c v w = (Ok r, w') ->
  (written (ser w') = written (ser w) ->
   ser w' = ser w /\
   stdout w' = stdout w ++ [PrintStr (error_text c)] /\
   r = rejection_value c /\
   (c <> Cmd_agc ->
    r = B "" /\
    exists v2 sent,
      sent <> [] /\
      fst (call c v2 (world [] [sent ++ B "ch>"])) = Ok r /\
      ser (snd (call c v2 (world [] [sent ++ B "ch>"]))) = mkSerial sent [])) /\
  (written (ser w') <> written (ser w) ->
   stdout w' = stdout w ++ announce c v /\
   ~ In (PrintStr (error_text c)) (announce c v) /\
   stdout w' <> stdout w ++ [PrintStr (error_text c)]).
Proof.
  intros Hcall. split.
  - intros Hw.
    destruct (call_rejects_with_text c v w w' r Hcall Hw) as (-> & ->).
    split; [reflexivity|]. split; [reflexivity|]. split; [reflexivity|].
    intros Hc.
    assert (Hr : rejection_value c = B "")
      by (destruct c; first [reflexivity | congruence]).
    rewrite Hr. split; [reflexivity|].
    exact (empty_reply_to_accepted_call c Hc).
  - intros Hw.
    pose proof (call_through_prints c v w w' r Hcall Hw) as Hout.
    pose proof (announce_not_error c v) as Hno.
    split; [exact Hout|]. split; [exact Hno|].
    rewrite Hout. intros E. apply app_inv_head in E.
    apply Hno. rewrite E. now left.
Qed.

Lemma rejection_reported_on_stdout_only_witness :
  let w := world [] [] in
  let w' := mkWorld (ser w) [PrintStr "ERROR: lna() takes vals [on|off]"] in
  let u := world [] [B "deviceid 12" ++ bCRLF ++ B "ch>"] in
  let u' := mkWorld (mkSerial (B "deviceid 12" ++ bCRLF) [])
                    [PrintStr "device ID set to 12"] in
  (call Cmd_lna (PStr "maybe") w = (Ok (B ""), w') /\
   written (ser w') = written (ser w) /\
   ser w' = ser w /\
   stdout w' = stdout w ++ [PrintStr (error_text Cmd_lna)] /\
   B "" = rejection_value Cmd_lna) /\
  (call Cmd_deviceid (PInt 12) u = (Ok (B ""), u') /\
   written (ser u') <> written (ser u) /\
   stdout u' = stdout u ++ announce Cmd_deviceid (PInt 12) /\
   stdout u' <> stdout u ++ [PrintStr (error_text Cmd_deviceid)]).
Proof.
  cbv zeta. split.
  - assert (H1 : call Cmd_lna (PStr "maybe") (world [] [])
                 = (Ok (B ""),
                    mkWorld (ser (world [] []))
                      [PrintStr "ERROR: lna() takes vals [on|off]"]))
      by reflexivity.
    assert (H2 : written (ser (mkWorld (ser (world [] []))
                      [PrintStr "ERROR: lna() takes vals [on|off]"]))
                 = written (ser (world [] [])))
      by reflexivity.
    split; [exact H1|]. split; [exact H2|].
    destruct (proj1 (rejection_reported_on_stdout_only _ _ _ _ _ H1) H2)
      as (Hs & Hm & Hr & _).
    split; [exact Hs|]. split; [exact Hm | exact Hr].
  - assert (H1 : call Cmd_deviceid (PInt 12)
                   (world [] [B "deviceid 12" ++ bCRLF ++ B "ch>"])
                 = (Ok (B ""),
                    mkWorld (mkSerial (B "deviceid 12" ++ bCRLF) [])
                      [PrintStr "device ID set to 12"]))
      by reflexivity.
    assert (H2 : written (ser (mkWorld (mkSerial (B "deviceid 12" ++ bCRLF) [])
                                 [PrintStr "device ID set to 12"]))
                 <> written (ser (world [] [B "deviceid 12" ++ bCRLF
                                            ++ B "ch>"])))
      by discriminate.
    split; [exact H1|]. split; [exact H2|].
    destruct (proj2 (rejection_reported_on_stdout_only _ _ _ _ _ H1) H2)
      as (Ha & _ & Hd).
    split; [exact Ha | exact Hd].
Defined.

End DispatchProperties.

(* ================================================================== *)
(** ** The read loop on arbitrary supplies of reads *)
(* ================================================================== *)

Section ReadLoopGeneral.

Lemma occurs_in_app_l (sub d e : bytes) :
  occurs_in sub d -> occurs_in sub (d ++ e).
Proof.
  intros (a & b & ->). exists a, (b ++ e). now rewrite <- !app_assoc.
Qed.

(** The split of a byte string at its first [>] is unique. *)
Lemma first_gt_unique (pre1 post1 pre2 post2 : bytes) :
  pre1 ++ ">"%byte :: post1 = pre2 ++ ">"%byte :: post2 ->
  ~ In ">"%byte pre1 -> ~ In ">"%byte pre2 ->
  pre1 = pre2.
Proof.
  intros E H1 H2.
  assert (S1 := search_byte_first ">"%byte pre1 post1 H1).
  assert (S2 := search_byte_first ">"%byte pre2 post2 H2).
  rewrite E in S1. rewrite S1 in S2. injection S2 as Hlen.
  rewrite <- (firstn_prefix pre1 (">"%byte :: post1)).
  rewrite <- (firstn_prefix pre2 (">"%byte :: post2)).
  now rewrite E, Hlen.
Qed.

(** Without the token anywhere in what is read, the loop takes every read
    and keeps waiting. *)
Lemma read_loop_never_breaks (polls : list bytes) :
  forall buffer,
    ~ occurs_in (B "ch>") (buffer ++ List.concat polls) ->
    read_loop buffer polls = Spin (buffer ++ List.concat polls).
Proof.
  induction polls as [|chunk polls IH]; intros buffer Hno.
  - simpl. now rewrite app_nil_r.
  - destruct chunk as [|c chunk]; [rewrite read_loop_idle; now apply IH|].
    cbn [List.concat] in Hno |- *. rewrite app_assoc in Hno |- *.
    rewrite read_loop_no_prompt; [now apply IH | discriminate |].
    apply search_None_iff. intros Hocc. apply Hno.
    now apply occurs_in_app_l.
Qed.

(** With the token somewhere in what is read, the loop breaks, and what it
    hands back is everything up to the first [>] of the reads taken
    together. *)
Lemma read_loop_breaks (polls : list bytes) :
  forall buffer,
    ~ occurs_in (B "ch>") buffer ->
    occurs_in (B "ch>") (buffer ++ List.concat polls) ->
    exists pre post left rest,
      buffer ++ List.concat polls = pre ++ ">"%byte :: post /\
      ~ In ">"%byte pre /\
      read_loop buffer polls = Break (pre ++ [">"%byte]) left rest.
Proof.
  induction polls as [|chunk polls IH]; intros buffer Hno Hocc.
  - simpl in Hocc. rewrite app_nil_r in Hocc. contradiction.
  - destruct chunk as [|c chunk]; [rewrite read_loop_idle; now apply IH|].
    cbn [List.concat] in Hocc |- *. rewrite app_assoc in Hocc |- *.
    destruct (search (buffer ++ c :: chunk) (B "ch>")) as [j|] eqn:Ej.
    + destruct (read_loop_prompt buffer (c :: chunk) polls j)
        as (pre & post & Hd & Hn & Hr); [discriminate | exact Ej |].
      exists pre, (post ++ List.concat polls),
        (skipn (j + 1) (buffer ++ c :: chunk)), polls.
      repeat split; [|exact Hn | exact Hr].
      rewrite Hd, <- app_assoc. reflexivity.
    + rewrite read_loop_no_prompt by (discriminate || exact Ej).
      apply IH; [now apply search_None_iff | exact Hocc].
Qed.

Lemma no_prompt_in_nil : ~ occurs_in (B "ch>") [].
Proof. apply search_None_iff. reflexivity. Qed.

(** The same, with the split at the first [>] given. *)
Lemma read_loop_frame (polls : list bytes) (pre post : bytes) :
  List.concat polls = pre ++ ">"%byte :: post ->
  ~ In ">"%byte pre ->
  occurs_in (B "ch>") (List.concat polls) ->
  exists left rest,
    read_loop [] polls = Break (pre ++ [">"%byte]) left rest.
Proof.
  intros Hd Hn Hocc.
  destruct (read_loop_breaks polls [] no_prompt_in_nil Hocc)
    as (pre' & post' & left & rest & Hd' & Hn' & Hr).
  cbn [app] in Hd'. rewrite Hd in Hd'.
  rewrite <- (first_gt_unique _ _ _ _ Hd' Hn Hn') in Hr.
  now exists left, rest.
Qed.

(** A reply whose only [>] closes a final [ch>], followed by further reads
    that start a new read: the loop hands back the reply and leaves the
    further reads. *)
Lemma read_loop_reassembles_then (polls more : list bytes) :
  forall buffer pre,
    ~ In ">"%byte pre ->
    buffer ++ List.concat polls = pre ++ B "ch>" ->
    List.length buffer < List.length pre + 3 ->
    exists left rest,
      read_loop buffer (polls ++ more) = Break (pre ++ B "ch>") left rest /\
      List.concat rest = List.concat more.
Proof.
  induction polls as [|chunk polls IH]; intros buffer pre Hn Hcat Hlen.
  - simpl in Hcat. rewrite app_nil_r in Hcat. subst buffer.
    rewrite length_app in Hlen. unfold B in Hlen. simpl in Hlen. lia.
  - destruct chunk as [|c chunk].
    + cbn [app]. rewrite read_loop_idle. now apply IH.
    + cbn [List.concat] in Hcat. rewrite app_assoc in Hcat.
      destruct (List.concat polls) as [|y ys] eqn:Erest.
      * rewrite app_nil_r in Hcat.
        destruct (search_complete (B "ch>") pre []) as (j & Hj & _).
        rewrite app_nil_r, <- Hcat in Hj.
        destruct (read_loop_prompt buffer (c :: chunk) (polls ++ more) j)
          as (pre' & post' & Hd & Hn' & Hr); [discriminate | exact Hj |].
        exists (skipn (j + 1) (buffer ++ c :: chunk)), (polls ++ more).
        split.
        -- eapply eq_trans; [exact Hr|]. f_equal.
           assert (Hpre : ~ In ">"%byte (pre ++ ["c"%byte; "h"%byte])).
           { intros Hin. apply in_app_or in Hin as [Hin|Hin];
               [now apply Hn|]. simpl in Hin. intuition discriminate. }
           rewrite Hcat, B_prompt, app_assoc in Hd.
           rewrite <- (first_gt_unique _ _ _ _ Hd Hpre Hn').
           now rewrite B_prompt, app_assoc.
        -- rewrite concat_app, Erest. reflexivity.
      * assert (Hstrict : List.length (buffer ++ c :: chunk)
                          < List.length pre + 3).
        { apply (f_equal (@List.length byte)) in Hcat.
          repeat rewrite length_app in Hcat. repeat rewrite length_app.
          unfold B in Hcat. simpl in Hcat |- *. lia. }
        assert (Hb : ~ occurs_in (B "ch>") (buffer ++ c :: chunk)).
        { intros (a & b & Hab).
          assert (Hgt : In ">"%byte (buffer ++ c :: chunk)).
          { rewrite Hab. apply in_or_app. right. apply in_or_app. left.
            simpl. auto. }
          destruct (exists_last (l := y :: ys)) as (tl & z & Etl);
            [discriminate|].
          rewrite Etl, B_prompt, !app_assoc in Hcat.
          apply app_inj_tail in Hcat as [Hcat _].
          assert (Hin : In ">"%byte (pre ++ ["c"%byte; "h"%byte])).
          { rewrite <- Hcat. apply in_or_app. now left. }
          apply in_app_or in Hin as [Hin|Hin]; [now apply Hn|].
          simpl in Hin. intuition discriminate. }
        cbn [app]. rewrite read_loop_no_prompt;
          [| discriminate | now apply search_None_iff].
        apply IH; [exact Hn | exact Hcat | exact Hstrict].
Qed.

End ReadLoopGeneral.

(* ================================================================== *)
(** ** Further properties of the exchange *)
(* ================================================================== *)

Section ExchangeProperties.

Lemma gt_not_in_app (a b : bytes) :
  ~ In ">"%byte a -> ~ In ">"%byte b -> ~ In ">"%byte (a ++ b).
Proof.
  intros Ha Hb Hin. apply in_app_or in Hin as [Hin|Hin]; auto.
Qed.

Lemma gt_not_in_crlf : ~ In ">"%byte bCRLF.
Proof. simpl. intuition discriminate. Qed.

(** One exchange on a supply of reads that makes up exactly one reply. *)
Lemma exchange_on_reply (writebyte : string) (w : World) (pre : bytes) :
  ~ In ">"%byte pre ->
  List.concat (pending (ser w)) = pre ++ B "ch>" ->
  exists rest,
    tinySASerial writebyte false w
    = (Ok (cleanReturn (pre ++ B "ch>")),
       mkWorld (mkSerial (written (ser w) ++ encode_utf8 writebyte) rest)
               (stdout w)) /\
    List.concat rest = [].
Proof.
  intros Hn Hcat.
  destruct (read_loop_reassembles (pending (ser w)) [] pre Hn Hcat)
    as (left & rest & Hr & Hrest); [simpl; lia|].
  exists rest. split; [|exact Hrest].
  now rewrite tinySASerial_run, Hr.
Qed.

Lemma cleanReturn_reply_with_payload (echo payload : bytes) :
  ~ occurs_in bCRLF echo ->
  cleanReturn ((echo ++ bCRLF ++ payload ++ bCRLF) ++ B "ch>")
  = payload ++ ["013"%byte].
Proof.
  intros He.
  replace ((echo ++ bCRLF ++ payload ++ bCRLF) ++ B "ch>")
    with (echo ++ bCRLF ++ ((payload ++ ["013"%byte]) ++ "010"%byte :: B "ch>"))
    by (unfold bCRLF; rewrite <- !app_assoc; reflexivity).
  rewrite cleanReturn_after_echo by exact He.
  change ((payload ++ ["013"%byte]) ++ "010"%byte :: B "ch>")
    with ((payload ++ ["013"%byte]) ++ ["010"%byte] ++ B "ch>").
  rewrite (app_assoc _ ["010"%byte]), endswith_app, <- app_assoc.
  replace (List.length ((payload ++ ["013"%byte]) ++ ["010"%byte] ++ B "ch>") - 4)
    with (List.length (payload ++ ["013"%byte]))
    by (rewrite !length_app; unfold B; simpl; lia).
  apply firstn_prefix.
Qed.

(** X1. Whenever the reads taken together contain the token [ch>],
    [getSerialReturn] returns, and the frame is the reads taken together up
    to and including their first [>], however they are cut; nothing is
    written or printed. *)
Theorem getSerialReturn_returns_up_to_first_gt (w : World) :
  occurs_in (B "ch>") (List.concat (pending (ser w))) ->
  exists pre post w',
    List.concat (pending (ser w)) = pre ++ ">"%byte :: post /\
    ~ In ">"%byte pre /\
    getSerialReturn w = (Ok (pre ++ [">"%byte]), w') /\
    written (ser w') = written (ser w) /\
    stdout w' = stdout w.
Proof.
  intros Hocc.
  destruct (read_loop_breaks (pending (ser w)) [] no_prompt_in_nil Hocc)
    as (pre & post & left & rest & Hd & Hn & Hr).
  exists pre, post. eexists. split; [exact Hd|]. split; [exact Hn|].
  unfold getSerialReturn. rewrite Hr. repeat split.
Qed.

Lemma getSerialReturn_returns_up_to_first_gt_witness :
  let w := world [] [B "ab"; []; B "c>d"; B "c"; B "h>x"; B "y"] in
  occurs_in (B "ch>") (List.concat (pending (ser w))) /\
  exists pre post w',
    List.concat (pending (ser w)) = pre ++ ">"%byte :: post /\
    ~ In ">"%byte pre /\
    getSerialReturn w = (Ok (pre ++ [">"%byte]), w') /\
    written (ser w') = written (ser w) /\
    stdout w' = stdout w.
Proof.
  cbv zeta.
  assert (H : occurs_in (B "ch>")
                (List.concat
                   (pending (ser (world [] [B "ab"; []; B "c>d"; B "c";
                                            B "h>x"; B "y"]))))).
  { exists (B "abc>d"), (B "xy"). reflexivity. }
  split; [exact H|].
  exact (getSerialReturn_returns_up_to_first_gt _ H).
Defined.

(** X2. There is no give-up: when the reads never bring the token [ch>], an
    exchange has written its command, takes every read and does not
    return. *)
Theorem tinySASerial_blocks_without_prompt (writebyte : string) (w : World) :
  ~ occurs_in (B "ch>") (List.concat (pending (ser w))) ->
  tinySASerial writebyte false w
  = (Diverge,
     mkWorld (mkSerial (written (ser w) ++ encode_utf8 writebyte) [])
             (stdout w)).
Proof.
  intros Hno. rewrite tinySASerial_run.
  now rewrite (read_loop_never_breaks (pending (ser w)) [] Hno).
Qed.

Lemma tinySASerial_blocks_without_prompt_witness :
  let w := world [] [B "pause"; bCRLF; B "c"; []; B "h"] in
  ~ occurs_in (B "ch>") (List.concat (pending (ser w))) /\
  tinySASerial ("pause" ++ CRLF) false w
  = (Diverge, world (B "pause" ++ bCRLF) []).
Proof.
  cbv zeta.
  assert (H : ~ occurs_in (B "ch>")
                (List.concat
                   (pending (ser (world [] [B "pause"; bCRLF; B "c"; [];
                                            B "h"]))))).
  { apply search_None_iff. reflexivity. }
  split; [exact H|].
  exact (tinySASerial_blocks_without_prompt ("pause" ++ CRLF) _ H).
Defined.

(** X3. What an exchange returns depends only on the bytes the reads bring
    taken together, not on how they are cut into reads nor on idle polls
    between them. *)
Theorem tinySASerial_result_ignores_fragmentation
    (writebyte : string) (w1 w2 : World) :
  List.concat (pending (ser w1)) = List.concat (pending (ser w2)) ->
  fst (tinySASerial writebyte false w1) = fst (tinySASerial writebyte false w2).
Proof.
  intros Hcat. rewrite !tinySASerial_run.
  destruct (search (List.concat (pending (ser w1))) (B "ch>")) as [j|] eqn:Ej.
  - assert (Hocc : occurs_in (B "ch>") (List.concat (pending (ser w1)))).
    { destruct (search_Some_split _ _ _ Ej) as (a & b & Hab & _).
      now exists a, b. }
    destruct (read_loop_breaks (pending (ser w1)) [] no_prompt_in_nil Hocc)
      as (pre & post & left & rest & Hd & Hn & Hr).
    cbn [app] in Hd. rewrite Hcat in Hd, Hocc.
    destruct (read_loop_frame (pending (ser w2)) pre post Hd Hn Hocc)
      as (left2 & rest2 & Hr2).
    now rewrite Hr, Hr2.
  - apply search_None_iff in Ej.
    rewrite (read_loop_never_breaks (pending (ser w1)) [] Ej).
    rewrite Hcat in Ej.
    now rewrite (read_loop_never_breaks (pending (ser w2)) [] Ej).
Qed.

Lemma tinySASerial_result_ignores_fragmentation_witness :
  let reply := B "vbat" ++ bCRLF ++ B "4132 mV" ++ bCRLF ++ B "ch>" in
  let w1 := world [] [reply] in
  let w2 := world [] [B "vb"; []; B "at" ++ bCRLF ++ B "4132"; [];
                      B " mV" ++ bCRLF ++ B "c"; B "h>"] in
  List.concat (pending (ser w1)) = List.concat (pending (ser w2)) /\
  fst (tinySASerial ("vbat" ++ CRLF) false w1)
  = fst (tinySASerial ("vbat" ++ CRLF) false w2).
Proof.
  cbv zeta. split; [reflexivity|].
  apply tinySASerial_result_ignores_fragmentation. reflexivity.
Defined.

(** X4. An exchange answered, in any fragmentation, by some first line
    without [>], a line break, a payload without [>], a line break and
    [ch>] returns the payload followed by a carriage return; answered by the
    first line, a line break and [ch>] alone it returns the empty byte
    string. The first line is never compared with the command that was
    sent. *)
Theorem tinySASerial_payload_whatever_echo
    (writebyte : string) (w : World) (echo payload : bytes) :
  ~ In ">"%byte echo ->
  ~ occurs_in bCRLF echo ->
  ~ In ">"%byte payload ->
  (List.concat (pending (ser w))
   = echo ++ bCRLF ++ payload ++ bCRLF ++ B "ch>" ->
   exists w',
     tinySASerial writebyte false w = (Ok (payload ++ ["013"%byte]), w') /\
     written (ser w') = written (ser w) ++ encode_utf8 writebyte /\
     List.concat (pending (ser w')) = [] /\
     stdout w' = stdout w) /\
  (List.concat (pending (ser w)) = echo ++ bCRLF ++ B "ch>" ->
   exists w',
     tinySASerial writebyte false w = (Ok [], w') /\
     written (ser w') = written (ser w) ++ encode_utf8 writebyte /\
     List.concat (pending (ser w')) = [] /\
     stdout w' = stdout w).
Proof.
  intros He Hnl Hp. split; intros Hcat.
  - assert (Hn : ~ In ">"%byte (echo ++ bCRLF ++ payload ++ bCRLF)).
    { repeat apply gt_not_in_app; auto using gt_not_in_crlf. }
    destruct (exchange_on_reply writebyte w _ Hn) as (rest & Hx & Hrest).
    { rewrite Hcat, <- !app_assoc. reflexivity. }
    rewrite cleanReturn_reply_with_payload in Hx by exact Hnl.
    eexists. split; [exact Hx|]. cbn. now rewrite Hrest.
  - assert (Hn : ~ In ">"%byte (echo ++ bCRLF)).
    { apply gt_not_in_app; auto using gt_not_in_crlf. }
    destruct (exchange_on_reply writebyte w _ Hn) as (rest & Hx & Hrest).
    { rewrite Hcat, <- !app_assoc. reflexivity. }
    rewrite <- app_assoc, cleanReturn_after_echo in Hx by exact Hnl.
    eexists. split; [exact Hx|]. cbn. now rewrite Hrest.
Qed.

Lemma tinySASerial_payload_whatever_echo_witness :
  let w := world [] [B "something"; B " else" ++ bCRLF ++ B "Resu";
                     B "med" ++ bCRLF ++ B "ch>"] in
  ~ In ">"%byte (B "something else") /\
  ~ occurs_in bCRLF (B "something else") /\
  ~ In ">"%byte (B "Resumed") /\
  exists w',
    tinySASerial ("status" ++ CRLF) false w
    = (Ok (B "Resumed" ++ ["013"%byte]), w') /\
    written (ser w') = written (ser w) ++ encode_utf8 ("status" ++ CRLF) /\
    List.concat (pending (ser w')) = [] /\
    stdout w' = stdout w.
Proof.
  cbv zeta.
  assert (H1 : ~ In ">"%byte (B "something else")).
  { simpl. intuition discriminate. }
  assert (H2 : ~ occurs_in bCRLF (B "something else")).
  { apply search_None_iff. reflexivity. }
  assert (H3 : ~ In ">"%byte (B "Resumed")).
  { simpl. intuition discriminate. }
  split; [exact H1|]. split; [exact H2|]. split; [exact H3|].
  exact (proj1 (tinySASerial_payload_whatever_echo
                  ("status" ++ CRLF)
                  (world [] [B "something"; B " else" ++ bCRLF ++ B "Resu";
                             B "med" ++ bCRLF ++ B "ch>"])
                  (B "something else") (B "Resumed") H1 H2 H3) eq_refl).
Defined.

End ExchangeProperties.

Section ExchangeEdges.

Lemma ends_with_gt_prompt (d : bytes) :
  ends_with (d ++ [">"%byte]) (B "ch>") -> ends_with d (B "ch").
Proof.
  intros (a & Ha). rewrite B_prompt, app_assoc in Ha.
  apply app_inj_tail in Ha as [Ha _]. now exists a.
Qed.

(** X5. The frame ends at the first [>] of the reply, so a payload that
    itself holds a [>] byte (binary data, say) is cut there: the exchange
    returns the payload up to and including that byte and nothing of what
    follows. *)
Theorem payload_cut_at_first_gt
    (writebyte : string) (w : World) (echo d1 d2 : bytes) :
  ~ In ">"%byte echo ->
  ~ occurs_in bCRLF echo ->
  ~ In ">"%byte d1 ->
  ~ ends_with d1 (B "ch") ->
  List.concat (pending (ser w))
  = echo ++ bCRLF ++ d1 ++ [">"%byte] ++ d2 ++ bCRLF ++ B "ch>" ->
  fst (tinySASerial writebyte false w) = Ok (d1 ++ [">"%byte]).
Proof.
  intros He Hnl Hd1 Hch Hcat.
  assert (Hn : ~ In ">"%byte (echo ++ bCRLF ++ d1)).
  { repeat apply gt_not_in_app; auto using gt_not_in_crlf. }
  assert (Hocc : occurs_in (B "ch>") (List.concat (pending (ser w)))).
  { exists (echo ++ bCRLF ++ d1 ++ [">"%byte] ++ d2 ++ bCRLF), [].
    rewrite Hcat, app_nil_r, <- !app_assoc. reflexivity. }
  destruct (read_loop_frame (pending (ser w)) (echo ++ bCRLF ++ d1)
              (d2 ++ bCRLF ++ B "ch>")) as (left & rest & Hr);
    [rewrite Hcat, <- !app_assoc; reflexivity | exact Hn | exact Hocc |].
  rewrite tinySASerial_run, Hr. cbn [fst]. f_equal.
  rewrite <- !app_assoc, cleanReturn_after_echo by exact Hnl.
  destruct (endswith (d1 ++ [">"%byte]) (B "ch>")) eqn:E; [|reflexivity].
  apply endswith_true_iff, ends_with_gt_prompt in E. contradiction.
Qed.

Lemma payload_cut_at_first_gt_witness :
  let w := world [] [B "capture" ++ bCRLF ++ B "AB>CD"; B "EF" ++ bCRLF ++ B "ch>"] in
  ~ In ">"%byte (B "capture") /\
  ~ occurs_in bCRLF (B "capture") /\
  ~ In ">"%byte (B "AB") /\
  ~ ends_with (B "AB") (B "ch") /\
  fst (tinySASerial ("capture" ++ CRLF) false w) = Ok (B "AB>").
Proof.
  cbv zeta.
  assert (H1 : ~ In ">"%byte (B "capture")).
  { simpl. intuition discriminate. }
  assert (H2 : ~ occurs_in bCRLF (B "capture")).
  { apply search_None_iff. reflexivity. }
  assert (H3 : ~ In ">"%byte (B "AB")).
  { simpl. intuition discriminate. }
  assert (H4 : ~ ends_with (B "AB") (B "ch")).
  { apply endswith_false_iff. reflexivity. }
  repeat (split; [assumption|]).
  exact (payload_cut_at_first_gt ("capture" ++ CRLF)
           (world [] [B "capture" ++ bCRLF ++ B "AB>CD";
                      B "EF" ++ bCRLF ++ B "ch>"])
           (B "capture") (B "AB") (B "CDEF") H1 H2 H3 H4 eq_refl).
Defined.

(** X6. Two exchanges in a row, each answered by a reply whose only [>]
    closes its final [ch>], the second reply starting in a read of its own:
    the first exchange returns the first reply normalised, the second the
    second, and both commands have been written in order. *)
Theorem exchanges_in_sequence
    (s1 s2 : string) (w : World) (polls1 polls2 : list bytes)
    (pre1 pre2 : bytes) :
  ~ In ">"%byte pre1 ->
  ~ In ">"%byte pre2 ->
  pending (ser w) = polls1 ++ polls2 ->
  List.concat polls1 = pre1 ++ B "ch>" ->
  List.concat polls2 = pre2 ++ B "ch>" ->
  exists w',
    (m1 <- tinySASerial s1 false ;;
     m2 <- tinySASerial s2 false ;;
     ret (m1, m2)) w
    = (Ok (cleanReturn (pre1 ++ B "ch>"), cleanReturn (pre2 ++ B "ch>")), w') /\
    written (ser w')
    = written (ser w) ++ encode_utf8 s1 ++ encode_utf8 s2 /\
    List.concat (pending (ser w')) = [] /\
    stdout w' = stdout w.
Proof.
  intros Hn1 Hn2 Hp Hc1 Hc2.
  destruct (read_loop_reassembles_then polls1 polls2 [] pre1 Hn1 Hc1)
    as (left & rest & Hr & Hrest); [simpl; lia|].
  unfold bind at 1. rewrite tinySASerial_run, Hp, Hr.
  set (w1 := mkWorld (mkSerial (written (ser w) ++ encode_utf8 s1) rest)
                     (stdout w)).
  destruct (exchange_on_reply s2 w1 pre2 Hn2) as (rest2 & Hx & Hrest2).
  { cbn. now rewrite Hrest. }
  unfold bind. rewrite Hx. eexists. split; [reflexivity|].
  cbn. rewrite <- app_assoc. now rewrite Hrest2.
Qed.

Lemma exchanges_in_sequence_witness :
  let polls1 := [B "pause"; bCRLF ++ B "ch>"] in
  let polls2 := [B "status" ++ bCRLF ++ B "Paused" ++ bCRLF; B "ch>"] in
  exists w',
    (m1 <- tinySASerial ("pause" ++ CRLF) false ;;
     m2 <- tinySASerial ("status" ++ CRLF) false ;;
     ret (m1, m2)) (world [] (polls1 ++ polls2))
    = (Ok ([], B "Paused" ++ ["013"%byte]), w') /\
    written (ser w') = B "pause" ++ bCRLF ++ B "status" ++ bCRLF /\
    List.concat (pending (ser w')) = [] /\
    stdout w' = [].
Proof.
  cbv zeta.
  assert (H1 : ~ In ">"%byte (B "pause" ++ bCRLF)).
  { simpl. intuition discriminate. }
  assert (H2 : ~ In ">"%byte (B "status" ++ bCRLF ++ B "Paused" ++ bCRLF)).
  { simpl. intuition discriminate. }
  exact (exchanges_in_sequence ("pause" ++ CRLF) ("status" ++ CRLF)
           (world [] ([B "pause"; bCRLF ++ B "ch>"]
                      ++ [B "status" ++ bCRLF ++ B "Paused" ++ bCRLF; B "ch>"]))
           [B "pause"; bCRLF ++ B "ch>"]
           [B "status" ++ bCRLF ++ B "Paused" ++ bCRLF; B "ch>"]
           (B "pause" ++ bCRLF) (B "status" ++ bCRLF ++ B "Paused" ++ bCRLF)
           H1 H2 eq_refl eq_refl eq_refl).
Defined.

(** X7. [cleanReturn] only ever cuts: its result is a contiguous piece of
    its input, never longer than the input. *)
Theorem cleanReturn_is_slice (data : bytes) :
  (exists a b, data = a ++ cleanReturn data ++ b) /\
  List.length (cleanReturn data) <= List.length data.
Proof.
  assert (H : exists a b, data = a ++ cleanReturn data ++ b).
  { unfold cleanReturn.
    set (d1 := if negb (find data bCRLF =? -1)%Z
               then slice_from data (find data bCRLF + 2) else data).
    assert (H1 : exists a, data = a ++ d1).
    { unfold d1. destruct (negb (find data bCRLF =? -1)%Z).
      - eexists. unfold slice_from. symmetry. apply firstn_skipn.
      - now exists []. }
    destruct H1 as (a & Ha).
    destruct (endswith d1 (B "ch>")).
    - exists a, (skipn (slice_bound (List.length d1) (-4)) d1).
      unfold slice_to. now rewrite firstn_skipn.
    - exists a, []. now rewrite app_nil_r. }
  split; [exact H|].
  destruct H as (a & b & E). apply (f_equal (@List.length byte)) in E.
  rewrite !length_app in E. lia.
Qed.

End ExchangeEdges.

(* ================================================================== *)
(** ** Properties of the methods without argument checking *)
(* ================================================================== *)

Section PlainProperties.

(** Every query is one exchange on its own line; [sd_list], written out by
    hand in the source, is no different. *)
Lemma ask_is_exchange (q : Plain.query) (w : World) :
  Plain.ask q w = tinySASerial (Plain.query_line q ++ CRLF) false w.
Proof.
  destruct q; reflexivity.
Qed.

Lemma query_line_plain (q : Plain.query) :
  ~ In ">"%byte (encode_utf8 (Plain.query_line q)) /\
  ~ occurs_in bCRLF (encode_utf8 (Plain.query_line q)) /\
  encode_utf8 (Plain.query_line q ++ CRLF)
  = encode_utf8 (Plain.query_line q) ++ bCRLF.
Proof.
  destruct q; (split; [simpl; intuition discriminate|]);
    (split; [apply search_None_iff; reflexivity | reflexivity]).
Qed.

(** X8. Each of the 22 query methods writes its own line and nothing else,
    prints nothing, and, when the device echoes that line and answers with
    a payload without [>], a line break and [ch>], returns the payload
    followed by a carriage return, however the reply is cut into reads. *)
Theorem query_returns_payload
    (q : Plain.query) (w : World) (payload : bytes) :
  ~ In ">"%byte payload ->
  List.concat (pending (ser w))
  = encode_utf8 (Plain.query_line q ++ CRLF) ++ payload ++ bCRLF ++ B "ch>" ->
  exists w',
    Plain.ask q w = (Ok (payload ++ ["013"%byte]), w') /\
    written (ser w')
    = written (ser w) ++ encode_utf8 (Plain.query_line q ++ CRLF) /\
    List.concat (pending (ser w')) = [] /\
    stdout w' = stdout w.
Proof.
  intros Hp Hcat.
  destruct (query_line_plain q) as (Hgt & Hnl & Henc).
  set (echo := encode_utf8 (Plain.query_line q)) in *.
  assert (Hn : ~ In ">"%byte (echo ++ bCRLF ++ payload ++ bCRLF)).
  { repeat apply gt_not_in_app; auto using gt_not_in_crlf. }
  destruct (exchange_on_reply (Plain.query_line q ++ CRLF) w _ Hn)
    as (rest & Hx & Hrest).
  { rewrite Hcat, Henc, <- !app_assoc. reflexivity. }
  rewrite cleanReturn_reply_with_payload in Hx by exact Hnl.
  rewrite ask_is_exchange. eexists. split; [exact Hx|].
  cbn. now rewrite Hrest.
Qed.

Lemma query_returns_payload_witness :
  let w := world [] [B "sd_l"; B "ist" ++ bCRLF ++ B "-0.bmp 3073"; [];
                     B "22" ++ bCRLF ++ B "ch>"] in
  ~ In ">"%byte (B "-0.bmp 307322") /\
  exists w',
    Plain.ask Plain.Q_sd_list w = (Ok (B "-0.bmp 307322" ++ ["013"%byte]), w') /\
    written (ser w') = B "sd_list" ++ bCRLF /\
    List.concat (pending (ser w')) = [] /\
    stdout w' = [].
Proof.
  cbv zeta.
  assert (H : ~ In ">"%byte (B "-0.bmp 307322")).
  { simpl. intuition discriminate. }
  split; [exact H|].
  exact (query_returns_payload Plain.Q_sd_list
           (world [] [B "sd_l"; B "ist" ++ bCRLF ++ B "-0.bmp 3073"; [];
                      B "22" ++ bCRLF ++ B "ch>"])
           (B "-0.bmp 307322") H eq_refl).
Defined.

(** X9. [reset] writes [reset\r\n] and then waits for the prompt like any
    exchange: it returns exactly when the reads bring [ch>], and what it
    returns is [None], whatever the device answered; when the prompt never
    comes it does not return. *)
Theorem reset_waits_and_returns_None (w : World) :
  written (ser (snd (Plain.reset w))) = written (ser w) ++ B "reset" ++ bCRLF /\
  (occurs_in (B "ch>") (List.concat (pending (ser w))) ->
   fst (Plain.reset w) = Ok tt) /\
  (~ occurs_in (B "ch>") (List.concat (pending (ser w))) ->
   fst (Plain.reset w) = Diverge).
Proof.
  unfold Plain.reset, bind. cbv zeta. rewrite tinySASerial_run.
  repeat split.
  - now destruct (read_loop [] (pending (ser w))).
  - intros Hocc.
    destruct (read_loop_breaks (pending (ser w)) [] no_prompt_in_nil Hocc)
      as (pre & post & left & rest & _ & _ & Hr).
    now rewrite Hr.
  - intros Hno.
    now rewrite (read_loop_never_breaks (pending (ser w)) [] Hno).
Qed.

Lemma reset_waits_and_returns_None_witness :
  let answered := world [] [B "reset" ++ bCRLF ++ B "bye" ++ bCRLF ++ B "ch>"] in
  let silent := world [] [B "reset" ++ bCRLF] in
  occurs_in (B "ch>") (List.concat (pending (ser answered))) /\
  fst (Plain.reset answered) = Ok tt /\
  ~ occurs_in (B "ch>") (List.concat (pending (ser silent))) /\
  fst (Plain.reset silent) = Diverge.
Proof.
  cbv zeta.
  assert (H1 : occurs_in (B "ch>")
                 (List.concat
                    (pending (ser (world [] [B "reset" ++ bCRLF ++ B "bye"
                                             ++ bCRLF ++ B "ch>"]))))).
  { exists (B "reset" ++ bCRLF ++ B "bye" ++ bCRLF), []. reflexivity. }
  assert (H2 : ~ occurs_in (B "ch>")
                 (List.concat (pending (ser (world [] [B "reset" ++ bCRLF]))))).
  { apply search_None_iff. reflexivity. }
  split; [exact H1|].
  split; [exact (proj1 (proj2 (reset_waits_and_returns_None _)) H1)|].
  split; [exact H2|].
  exact (proj2 (proj2 (reset_waits_and_returns_None _)) H2).
Defined.

End PlainProperties.

(* ================================================================== *)
(** ** Further properties of the checking methods *)
(* ================================================================== *)

(** Close the branch of a case analysis in which the call of a method on
    argument [V] goes through, with the argument part pinned in each of its
    three forms. *)
Ltac pin_argument :=
  repeat split; intros;
  first [reflexivity | congruence | discriminate
        | match goal with
          | H : _ \/ _ |- _ => destruct H; discriminate
          end ].

Ltac goes_through_pinned V :=
  first
    [ solve [exists (" " ++ str V)%string;
             split; [run_exchange | pin_argument]]
    | solve [exists ""%string;
             split; [run_exchange | pin_argument]]
    | solve [exists (" " ++ str_builtin_id)%string;
             split; [run_exchange | pin_argument]] ].

Section CheckingProperties.

(** A call that raises is a call of [setIF] or [if1] on a non-integer. *)
Lemma call_raises (c : command) (v : pyval) (w w' : World) (e : pyexn) :
  call c v w = (Exn e, w') ->
  (c = Cmd_setIF \/ c = Cmd_if1) /\
  isinstance_int v = false /\ e = TypeError /\ w' = w.
Proof.
  destruct c; destruct v as [|z|s]; cbn [call]; unfold_commands;
    split_guards; intros H;
    first
      [ discriminate H
      | solve [exfalso; clear H; guard_facts]
      | solve [injection H as <- <-; repeat split; auto]
      | exfalso; revert H;
        rewrite ?bind_print, ?tinySASerial_then_print, ?tinySASerial_run;
        match goal with
        | |- context [read_loop [] ?p] => destruct (read_loop [] p)
        end; discriminate ].
Qed.

Lemma dac_in_range (z : Z) (w : World) :
  (0 <= z <= 4095)%Z ->
  dac (PInt z) w
  = bind (tinySASerial ("dac " ++ str_builtin_id ++ CRLF) false)
      (fun m => bind (print ("dac set to " ++ str_builtin_id))
                  (fun _ => ret m)) w.
Proof.
  intros Hz. unfold dac. cbn [py_eq]. rewrite bind_eval.
  cbn [and_then isinstance_int between].
  replace ((0 <=? z)%Z && (z <=? 4095)%Z) with true; [reflexivity|].
  symmetry. apply andb_true_iff. split; [apply Z.leb_le | apply Z.leb_le]; lia.
Qed.

Lemma vbat_offset_in_range (z : Z) (w : World) :
  (0 <= z <= 4095)%Z ->
  vbat_offset (PInt z) w
  = bind (tinySASerial ("vbat_offset " ++ str_builtin_id ++ CRLF) false)
      (fun m => bind (print ("vbat_offset set to " ++ str_builtin_id))
                  (fun _ => ret m)) w.
Proof.
  intros Hz. unfold vbat_offset. cbn [py_eq]. rewrite bind_eval.
  cbn [and_then isinstance_int between].
  replace ((0 <=? z)%Z && (z <=? 4095)%Z) with true; [reflexivity|].
  symmetry. apply andb_true_iff. split; [apply Z.leb_le | apply Z.leb_le]; lia.
Qed.

(** X11. Every value of a method's documented domain ([None], an [int]
    whose [str] CPython computes, or a [str]) goes through, and what the
    method writes is pinned: for [None], the wire name and the line break;
    for a value, the wire name, a space, [str] of the value and the line
    break, except that [dac] and [vbat_offset] put the text of the builtin
    [id] in place of the value. The two exceptions are [attenuate(31)] and
    the numbers of [rbw]. *)
Theorem documented_values_go_through (c : command) (v : pyval) (w : World) :
  documented_domain c v = true ->
  within_str_limit v ->
  ~ (c = Cmd_attenuate /\ v = PInt 31) ->
  ~ (c = Cmd_rbw /\ isinstance_int v = true) ->
  exists s,
    written (ser (snd (call c v w)))
    = written (ser w) ++ encode_utf8 (wire_name c ++ s ++ CRLF) /\
    (v = PNone -> s = ""%string) /\
    (v <> PNone -> c <> Cmd_dac -> c <> Cmd_vbat_offset ->
     s = (" " ++ str v)%string) /\
    (v <> PNone -> c = Cmd_dac \/ c = Cmd_vbat_offset ->
     s = (" " ++ str_builtin_id)%string).
Proof.
  intros Hdom _ Hatt Hrbw.
  destruct v as [|z|s].
  - destruct c; try discriminate Hdom; cbn [call wire_name];
      unfold_commands; split_guards; try goes_through_pinned PNone;
      exfalso; cbn [documented_domain] in Hdom; unfold on_off in Hdom;
      guard_facts;
      solve [intuition (subst; try discriminate; try congruence; lia)].
  - assert (Hz : c = Cmd_attenuate -> z <> 31%Z).
    { intros -> ->. apply Hatt. now split. }
    destruct c; cbn [call wire_name];
      try solve [exfalso; apply Hrbw; split; reflexivity];
      unfold_commands; split_guards; try goes_through_pinned (PInt z);
      exfalso; try specialize (Hz eq_refl);
      cbn [documented_domain] in Hdom; unfold on_off in Hdom;
      guard_facts;
      solve [intuition (subst; try discriminate; try congruence; lia)].
  - destruct c; try discriminate Hdom; cbn [call wire_name];
      unfold_commands; split_guards; try goes_through_pinned (PStr s);
      exfalso; cbn [documented_domain] in Hdom; unfold on_off in Hdom;
      guard_facts;
      solve [intuition (subst; try discriminate; try congruence; lia)].
Qed.

Lemma documented_values_go_through_witness :
  documented_domain Cmd_levelchange (PInt (-70)) = true /\
  within_str_limit (PInt (-70)) /\
  documented_domain Cmd_deviceid PNone = true /\
  written (ser (snd (call Cmd_levelchange (PInt (-70)) (world [] []))))
  = B "levelchange -70" ++ bCRLF /\
  written (ser (snd (call Cmd_deviceid PNone (world [] []))))
  = B "deviceid" ++ bCRLF.
Proof.
  assert (Hl : within_str_limit (PInt (-70))).
  { unfold within_str_limit. vm_compute. reflexivity. }
  split; [reflexivity|]. split; [exact Hl|]. split; [reflexivity|]. split.
  - destruct (documented_values_go_through Cmd_levelchange (PInt (-70))
                (world [] []) eq_refl Hl) as (s & Hw & _ & Hs & _).
    + intros [H _]. discriminate H.
    + intros [H _]. discriminate H.
    + rewrite Hw, Hs by discriminate. reflexivity.
  - destruct (documented_values_go_through Cmd_deviceid PNone
                (world [] []) eq_refl I) as (s & Hw & Hs & _).
    + intros [H _]. discriminate H.
    + intros [H _]. discriminate H.
    + rewrite Hw, Hs by reflexivity. reflexivity.
Defined.

(** X12. [rbw] turns down every integer below 3000 or above 600000, so all
    of its documented range 3..600: the error line is printed, the empty
    byte string returned, the port left alone. *)
Theorem rbw_rejects_documented_numbers (z : Z) (w : World) :
  (z < 3000 \/ 600000 < z)%Z ->
  rbw (PInt z) w
  = (Ok (B ""),
     mkWorld (ser w)
       (stdout w
        ++ [PrintStr "ERROR: rbw() takes vals [auto |0 - 600] in kHz as integers"])).
Proof.
  intros Hz. unfold rbw. cbn [py_eq]. rewrite bind_eval.
  cbn [and_then isinstance_int between].
  replace ((3 * 10 ^ 3 <=? z)%Z && (z <=? 600 * 10 ^ 3)%Z) with false;
    [reflexivity|].
  symmetry. apply andb_false_iff.
  destruct Hz; [left; apply Z.leb_gt | right; apply Z.leb_gt]; lia.
Qed.

Lemma rbw_rejects_documented_numbers_witness :
  (300 < 3000 \/ 600000 < 300)%Z /\
  rbw (PInt 300) (world [] [])
  = (Ok [],
     mkWorld (ser (world [] []))
       [PrintStr "ERROR: rbw() takes vals [auto |0 - 600] in kHz as integers"]).
Proof.
  assert (H : (300 < 3000 \/ 600000 < 300)%Z) by (left; lia).
  split; [exact H|].
  exact (rbw_rejects_documented_numbers 300 (world [] []) H).
Defined.

(** X13. For an argument that is [None], an [int] or a [str] and lies
    outside the method's documented domain, the call is answered before any
    I/O: either by the rejecting branch (its fixed value, the method's own
    error text printed once, port untouched) or, for [setIF] and [if1] on
    [None] or a [str], by a [TypeError] with nothing printed. Among such
    arguments the one exception is [rbw] on 3000..600000. *)
Theorem outside_domain_answered_before_io
    (c : command) (v : pyval) (w : World) :
  documented_domain c v = false ->
  (c = Cmd_rbw -> forall z, v = PInt z -> ~ (3000 <= z <= 600000)%Z) ->
  call c v w
  = (Ok (rejection_value c),
     mkWorld (ser w) (stdout w ++ [PrintStr (error_text c)])) \/
  ((c = Cmd_setIF \/ c = Cmd_if1) /\ isinstance_int v = false /\
   call c v w = (Exn TypeError, w)).
Proof.
  intros Hdom Hrbw.
  pose proof (no_io_outside_documented_domain c v w Hdom Hrbw) as Hser.
  destruct (call_cases c v w) as [(msg & Hrej) | [Hexn | (s & Hs)]].
  - left.
    destruct (call_rejects_with_text c v w _ _ Hrej eq_refl) as (_ & Hw').
    now rewrite Hrej, Hw'.
  - right. destruct (call_raises c v w w TypeError Hexn) as (Hc & Hv & _).
    now repeat split.
  - exfalso. rewrite Hser in Hs.
    rewrite <- (app_nil_r (written (ser w))) in Hs at 1.
    apply app_inv_head in Hs. symmetry in Hs.
    now apply wire_nonempty in Hs.
Qed.

Lemma outside_domain_answered_before_io_witness :
  documented_domain Cmd_freq (PInt 99999) = false /\
  documented_domain Cmd_setIF (PStr "433M") = false /\
  call Cmd_freq (PInt 99999) (world [] [B "ch>"])
  = (Ok (B ""),
     mkWorld (ser (world [] [B "ch>"]))
       [PrintStr (error_text Cmd_freq)]) /\
  call Cmd_setIF (PStr "433M") (world [] [B "ch>"])
  = (Exn TypeError, world [] [B "ch>"]).
Proof.
  split; [reflexivity|]. split; [reflexivity|]. split.
  - destruct (outside_domain_answered_before_io Cmd_freq (PInt 99999)
                (world [] [B "ch>"]) eq_refl) as [H | ([H|H] & _)].
    + intros H. discriminate H.
    + exact H.
    + discriminate H.
    + discriminate H.
  - destruct (outside_domain_answered_before_io Cmd_setIF (PStr "433M")
                (world [] [B "ch>"]) eq_refl) as [H | (_ & _ & H)].
    + intros H. discriminate H.
    + discriminate H.
    + exact H.
Defined.

(** X14. On arguments that are [None], a [str] or an [int] whose [str]
    CPython computes, the only calls that raise are those of [setIF] and
    [if1] on [None] or a [str]: their guard orders the argument against
    integer bounds unguarded. They raise [TypeError] on [None] and on every
    [str], leaving port and console as they were; no other checking method
    raises on such arguments. *)
Theorem only_setIF_and_if1_raise :
  (forall c v w e w',
     within_str_limit v ->
     call c v w = (Exn e, w') ->
     (c = Cmd_setIF \/ c = Cmd_if1) /\
     (v = PNone \/ exists s, v = PStr s) /\ e = TypeError /\ w' = w) /\
  (forall v w,
     v = PNone \/ (exists s, v = PStr s) ->
     setIF v w = (Exn TypeError, w) /\ if1 v w = (Exn TypeError, w)).
Proof.
  split.
  - intros c v w e w' _ H.
    destruct (call_raises c v w w' e H) as (Hc & Hv & He & Hw).
    repeat split; try assumption.
    destruct v as [|z|s]; [now left | discriminate Hv | right; now exists s].
  - intros v w [-> | (s & ->)]; now split.
Qed.

Lemma only_setIF_and_if1_raise_witness :
  within_str_limit (PStr "433M") /\
  setIF (PStr "433M") (world [] []) = (Exn TypeError, world [] []) /\
  if1 PNone (world [] []) = (Exn TypeError, world [] []) /\
  (Cmd_setIF = Cmd_setIF \/ Cmd_setIF = Cmd_if1).
Proof.
  destruct only_setIF_and_if1_raise as (H1 & H2).
  assert (Hs : setIF (PStr "433M") (world [] [])
               = (Exn TypeError, world [] []))
    by exact (proj1 (H2 (PStr "433M") (world [] [])
                       (or_intror (ex_intro _ "433M"%string eq_refl)))).
  split; [exact I|]. split; [exact Hs|]. split.
  - exact (proj2 (H2 PNone (world [] []) (or_introl eq_refl))).
  - exact (proj1 (H1 Cmd_setIF (PStr "433M") (world [] []) TypeError
                    (world [] []) I Hs)).
Defined.

(** X15. [dac] and [vbat_offset] do not transmit their value: two calls with
    any two values in 0..4095 do exactly the same. *)
Theorem dac_ignores_value (z1 z2 : Z) (w : World) :
  (0 <= z1 <= 4095)%Z ->
  (0 <= z2 <= 4095)%Z ->
  dac (PInt z1) w = dac (PInt z2) w /\
  vbat_offset (PInt z1) w = vbat_offset (PInt z2) w.
Proof.
  intros H1 H2. split.
  - now rewrite !dac_in_range.
  - now rewrite !vbat_offset_in_range.
Qed.

Lemma dac_ignores_value_witness :
  (0 <= 0 <= 4095)%Z /\ (0 <= 4095 <= 4095)%Z /\
  dac (PInt 0) (world [] []) = dac (PInt 4095) (world [] []).
Proof.
  assert (H1 : (0 <= 0 <= 4095)%Z) by lia.
  assert (H2 : (0 <= 4095 <= 4095)%Z) by lia.
  split; [exact H1|]. split; [exact H2|].
  exact (proj1 (dac_ignores_value 0 4095 (world [] []) H1 H2)).
Defined.

(** X16. When the device echoes the line [dac] sent, the [>] of
    [<built-in function id>] in the echo is the first [>] of the reply:
    whatever the device answers after it, [dac] returns the echoed
    [dac <built-in function id>] as if it were the payload. *)
Theorem dac_returns_its_own_echo (z : Z) (w : World) (tail : bytes) :
  (0 <= z <= 4095)%Z ->
  List.concat (pending (ser w))
  = B "dac <built-in function id>" ++ bCRLF ++ tail ->
  occurs_in (B "ch>") tail ->
  fst (dac (PInt z) w) = Ok (B "dac <built-in function id>").
Proof.
  intros Hz Hcat (a & b & ->).
  rewrite (dac_in_range z w Hz), tinySASerial_then_print.
  destruct (read_loop_frame (pending (ser w)) (B "dac <built-in function id")
              (bCRLF ++ a ++ B "ch>" ++ b)) as (left & rest & Hr).
  - rewrite Hcat. reflexivity.
  - simpl. intuition discriminate.
  - rewrite Hcat.
    exists (B "dac <built-in function id>" ++ bCRLF ++ a), b.
    now rewrite <- !app_assoc.
  - now rewrite Hr.
Qed.

Lemma dac_returns_its_own_echo_witness :
  let tail := B "usage: dac {value(0-4095)}" ++ bCRLF ++ B "ch>" in
  let w := world [] [B "dac <built-in function id>" ++ bCRLF ++ tail] in
  (0 <= 7 <= 4095)%Z /\ occurs_in (B "ch>") tail /\
  fst (dac (PInt 7) w) = Ok (B "dac <built-in function id>").
Proof.
  cbv zeta.
  assert (H1 : (0 <= 7 <= 4095)%Z) by lia.
  assert (H2 : occurs_in (B "ch>")
                 (B "usage: dac {value(0-4095)}" ++ bCRLF ++ B "ch>")).
  { exists (B "usage: dac {value(0-4095)}" ++ bCRLF), []. reflexivity. }
  split; [exact H1|]. split; [exact H2|].
  exact (dac_returns_its_own_echo 7
           (world [] [B "dac <built-in function id>" ++ bCRLF
                      ++ B "usage: dac {value(0-4095)}" ++ bCRLF ++ B "ch>"])
           _ H1 eq_refl H2).
Defined.

End CheckingProperties.

Section CheckingExchange.

(** X17. A checking method adds nothing to the exchange it starts: when its
    call goes through and the reads make up one reply whose only [>] closes
    its final [ch>], the call returns that reply normalised by
    [cleanReturn], having consumed all of it, however it is cut into
    reads. *)
Theorem accepted_call_returns_normalised_reply
    (c : command) (v : pyval) (w : World) (pre : bytes) :
  ~ In ">"%byte pre ->
  List.concat (pending (ser w)) = pre ++ B "ch>" ->
  written (ser (snd (call c v w))) <> written (ser w) ->
  fst (call c v w) = Ok (cleanReturn (pre ++ B "ch>")) /\
  List.concat (pending (ser (snd (call c v w)))) = [].
Proof.
  intros Hn Hcat.
  destruct (read_loop_reassembles (pending (ser w)) [] pre Hn Hcat)
    as (left & rest & Hr & Hrest); [simpl; lia|].
  destruct c; cbn [call]; unfold_commands; split_guards; intros Hw;
    try (exfalso; apply Hw; reflexivity);
    rewrite ?bind_print, ?tinySASerial_then_print, ?tinySASerial_run;
    cbn [ser pending]; rewrite Hr; (split; [reflexivity | exact Hrest]).
Qed.

Lemma accepted_call_returns_normalised_reply_witness :
  let w := world [] [B "freq 1000"; B "00" ++ bCRLF; []; B "ch>"] in
  ~ In ">"%byte (B "freq 100000" ++ bCRLF) /\
  written (ser (snd (call Cmd_freq (PInt 100000) w))) <> written (ser w) /\
  fst (call Cmd_freq (PInt 100000) w) = Ok [] /\
  List.concat (pending (ser (snd (call Cmd_freq (PInt 100000) w)))) = [].
Proof.
  cbv zeta.
  assert (H1 : ~ In ">"%byte (B "freq 100000" ++ bCRLF)).
  { simpl. intuition discriminate. }
  assert (H2 : written (ser (snd (call Cmd_freq (PInt 100000)
                 (world [] [B "freq 1000"; B "00" ++ bCRLF; []; B "ch>"]))))
               <> written (ser (world [] [B "freq 1000"; B "00" ++ bCRLF; [];
                                          B "ch>"]))).
  { discriminate. }
  split; [exact H1|]. split; [exact H2|].
  exact (accepted_call_returns_normalised_reply Cmd_freq (PInt 100000)
           (world [] [B "freq 1000"; B "00" ++ bCRLF; []; B "ch>"])
           (B "freq 100000" ++ bCRLF) H1 eq_refl H2).
Defined.

End CheckingExchange.
